(** * JobFlow mobile client

    A shallow embedding of the client core of the JobFlow mobile app:
    - [mobile/lib/token.ts] and [mobile/lib/auth.ts]: the token store,
    - [mobile/lib/config.ts]: resolution of the API base URL,
    - [mobile/lib/api.ts]: [withJobId] and the [request] dispatcher,
    - [mobile/app/(tabs)/reports.tsx]: [csvEscape].

    Asynchronous functions are state transformers over a [World] that holds
    the secure key/value storage, a schedule of storage faults and the trace
    of effects performed; a rejected promise is the [Throw] outcome. *)

From Stdlib Require Import ZArith Ascii String List Bool Lia DecimalString.
From Stdlib Require Import Floats.PrimFloat.
From Stdlib Require Uint63 Floats.FloatOps Floats.SpecFloat.
From stdpp Require Import gmap strings.

Open Scope string_scope.
Set Warnings "-register-all".

(** ** JavaScript values *)

Module JS.

(** The values [JSON.parse] produces, together with [undefined]. Object
    properties are kept in insertion order, one entry per key. *)
Inductive JSValue : Type :=
| JUndefined
| JNull
| JBool (b : bool)
| JNumber (n : float)
| JString (s : string)
| JArray (items : list JSValue)
| JObject (props : list (string * JSValue)).

(** Truthiness of a string: every string but the empty one. *)
Definition str_truthy (s : string) : bool :=
  match s with
  | EmptyString => false
  | String _ _ => true
  end.

(** ToBoolean: [undefined], [null], [false], [0], [-0], [NaN] and the empty
    string are falsy. *)
Definition truthy (v : JSValue) : bool :=
  match v with
  | JUndefined | JNull => false
  | JBool b => b
  | JNumber n => negb (PrimFloat.eqb n 0%float || negb (PrimFloat.eqb n n))
  | JString s => str_truthy s
  | JArray _ | JObject _ => true
  end.

(** [a || b] *)
Definition or_else (a b : JSValue) : JSValue := if truthy a then a else b.

(** [typeof v === "string"] *)
Definition is_string (v : JSValue) : bool :=
  match v with JString _ => true | _ => false end.

(** [v === undefined] *)
Definition is_undefined (v : JSValue) : bool :=
  match v with JUndefined => true | _ => false end.

(** [v ?? d] *)
Definition nullish_or (v d : JSValue) : JSValue :=
  match v with JUndefined | JNull => d | _ => v end.

Fixpoint assoc (k : string) (props : list (string * JSValue)) : option JSValue :=
  match props with
  | [] => None
  | (k', v) :: rest => if String.eqb k k' then Some v else assoc k rest
  end.

(** [v.k] for a key [k] that no prototype defines (such as [detail] and
    [message]): the own property of an object, [undefined] on any other
    non-nullish value. The callers below only read properties of truthy
    values, so the TypeError of a nullish receiver never arises. *)
Definition get_prop (v : JSValue) (k : string) : JSValue :=
  match v with
  | JObject props => default JUndefined (assoc k props)
  | _ => JUndefined
  end.

(** [String(n)] for a number holding an integer of magnitude below 2^53 (a
    safe integer, as identifiers and status codes are): its decimal digits,
    with a leading minus sign when negative. *)
Definition String_of_int (n : Z) : string :=
  NilZero.string_of_int (Z.to_int n).

(** [l.join(sep)] *)
Fixpoint join (sep : string) (l : list string) : string :=
  match l with
  | [] => EmptyString
  | x :: xs =>
      match xs with
      | [] => x
      | _ :: _ => x +:+ sep +:+ join sep xs
      end
  end.

Section ToString.

(** [Number.prototype.toString] on an arbitrary double is the platform's. *)
Variable Number_toString : float -> string.

(** [String(v)], with [None] for the TypeError it can raise. Arrays join
    their elements with commas, printing nullish elements as nothing. An
    object prints as [[object Object]] through the [toString] it inherits;
    one with a property of its own under that name (never a function in a
    value made of JSON data) cannot be converted. *)
Fixpoint ToString (v : JSValue) : option string :=
  match v with
  | JUndefined => Some "undefined"
  | JNull => Some "null"
  | JBool true => Some "true"
  | JBool false => Some "false"
  | JNumber n => Some (Number_toString n)
  | JString s => Some s
  | JArray items =>
      join "," <$>
        mapM (fun x =>
                match x with
                | JUndefined | JNull => Some EmptyString
                | _ => ToString x
                end) items
  | JObject props =>
      match assoc "toString" props with
      | Some _ => None
      | None => Some "[object Object]"
      end
  end.

End ToString.

End JS.
Import JS.

(** ** The host platform *)

Inductive HttpMethod := GET | POST | PUT | DELETE.

(** The [init] argument of [fetch]. *)
Record RequestInit := mkInit {
  init_method : HttpMethod;
  init_headers : gmap string string;
  init_body : option string;
}.

(** A [Response]: its status and the text its body reads as. *)
Record Response := mkResponse {
  status : Z;
  body_text : string;
}.

(** [res.ok] *)
Definition ok (res : Response) : bool :=
  (200 <=? status res)%Z && (status res <=? 299)%Z.

(** [Constants] of expo-constants, as far as [readExtra] looks at it. *)
Record Extra := mkExtra { apiBaseUrl : option string }.
Record Manifest := mkManifest { extra : option Extra }.
Record ExpoConstants := mkConstants {
  expoConfig : option Manifest;
  manifest : option Manifest;
  manifest2 : option Manifest;
}.

(** What the code takes from its runtime: the JSON codec, number printing and
    reading, the network behind [fetch] ([None] is a rejected fetch), the
    build-time constants and the process environment. *)
Record Platform := mkPlatform {
  JSON_parse : string -> option JSValue;
  JSON_stringify : JSValue -> string;
  Number_toString : float -> string;
  Number_of_string : string -> float;
  network : string -> RequestInit -> option Response;
  Constants : ExpoConstants;
  process_env : gmap string string;
}.

(** ** Effects *)

Inductive Event :=
| EvGetItem (key : string)
| EvSetItem (key value : string)
| EvDeleteItem (key : string)
| EvFetch (url : string) (init : RequestInit)
| EvText
| EvJsonParse (text : string).

(** What a promise can reject with: an [Error] with its message, a rejection
    by the secure storage, a rejection by [fetch], the SyntaxError of
    [JSON.parse], the TypeError of a failed conversion to a string. *)
Inductive Exn :=
| JsError (message : string)
| StorageError
| TransportFailure
| SyntaxError
| TypeError.

Record World := mkWorld {
  secure : gmap string string;
  faults : list bool;
  trace : list Event;
}.

Inductive Outcome (A : Type) :=
| Return (a : A)
| Throw (e : Exn).
Arguments Return {A} a.
Arguments Throw {A} e.

Definition Async (A : Type) : Type := World -> Outcome A * World.

#[global] Instance Async_ret : MRet Async := fun A a w => (Return a, w).

#[global] Instance Async_bind : MBind Async := fun A B k m w =>
  match m w with
  | (Return a, w') => k a w'
  | (Throw e, w') => (Throw e, w')
  end.

Definition throw {A} (e : Exn) : Async A := fun w => (Throw e, w).

(** [try { m } catch (e) { h e }] *)
Definition try_catch {A} (m : Async A) (h : Exn -> Async A) : Async A := fun w =>
  match m w with
  | (Return a, w') => (Return a, w')
  | (Throw e, w') => h e w'
  end.

(** The world with one more event in its trace. *)
Definition record (e : Event) (w : World) : World :=
  mkWorld (secure w) (faults w) (trace w ++ [e]).

Definition emit (e : Event) : Async unit := fun w => (Return tt, record e w).

(** The calls of [fetch] among some events, in order. *)
Definition fetches (evs : list Event) : list (string * RequestInit) :=
  omap (fun e => match e with EvFetch url init => Some (url, init) | _ => None end) evs.

(** The texts handed to [JSON.parse] among some events, in order. *)
Definition parses (evs : list Event) : list string :=
  omap (fun e => match e with EvJsonParse t => Some t | _ => None end) evs.

(** How many times a response body was read as text. *)
Definition text_reads (evs : list Event) : nat :=
  length (omap (fun e => match e with EvText => Some tt | _ => None end) evs).

(** Whether an outcome is a normal completion. *)
Definition returns {A} (r : Outcome A * World) : bool :=
  match r with (Return _, _) => true | (Throw _, _) => false end.

(** Whether the next storage call of a world rejects. *)
Definition faulted (w : World) : bool :=
  match faults w with
  | b :: _ => b
  | [] => false
  end.

(** The world after a storage call [e] that left the contents as [items]. *)
Definition after_call (e : Event) (items : gmap string string) (w : World) : World :=
  mkWorld items (tail (faults w)) (trace w ++ [e]).

(** The events a computation added to the trace of the world it started in. *)
Definition events_since (w w' : World) : list Event :=
  drop (length (trace w)) (trace w').

(** ** expo-secure-store

    Every call consumes one entry of the fault schedule; on [true] the call
    rejects and leaves the storage as it was. An exhausted schedule means
    the storage works. *)
Module SecureStore.

Definition fault : Async bool := fun w =>
  match faults w with
  | [] => (Return false, w)
  | b :: rest => (Return b, mkWorld (secure w) rest (trace w))
  end.

Definition getItemAsync (key : string) : Async (option string) :=
  emit (EvGetItem key);;
  b ← fault;
  if b : bool then throw StorageError
  else fun w => (Return (secure w !! key), w).

Definition setItemAsync (key value : string) : Async unit :=
  emit (EvSetItem key value);;
  b ← fault;
  if b : bool then throw StorageError
  else fun w => (Return tt, mkWorld (<[key := value]> (secure w)) (faults w) (trace w)).

Definition deleteItemAsync (key : string) : Async unit :=
  emit (EvDeleteItem key);;
  b ← fault;
  if b : bool then throw StorageError
  else fun w => (Return tt, mkWorld (delete key (secure w)) (faults w) (trace w)).

End SecureStore.

(** ** mobile/lib/token.ts and mobile/lib/auth.ts *)

Module TokenStore.
Import SecureStore.

Definition TOKEN_KEY : string := "jobflow_access_token".
Definition USER_ID_KEY : string := "jobflow_user_id".

Definition getToken : Async (option string) :=
  try_catch
    (tok ← getItemAsync TOKEN_KEY;
     mret tok)
    (fun _ => mret None).

Definition setToken (token : string) : Async unit :=
  try_catch
    (if negb (str_truthy token) then mret tt
     else setItemAsync TOKEN_KEY token)
    (fun _ => mret tt).

Definition clearToken : Async unit :=
  try_catch (deleteItemAsync TOKEN_KEY) (fun _ => mret tt).

Definition setAuth (token : string) (userId : Z) : Async unit :=
  setToken token;;
  setItemAsync USER_ID_KEY (String_of_int userId).

(** [Number(v)] is the platform's reading of a string as a number. *)
Definition getUserId (P : Platform) : Async (option float) :=
  try_catch
    (v ← getItemAsync USER_ID_KEY;
     mret (match v with
           | Some s => if str_truthy s then Some (Number_of_string P s) else None
           | None => None
           end))
    (fun _ => mret None).

Definition clearAuth : Async unit :=
  clearToken;;
  try_catch (deleteItemAsync USER_ID_KEY) (fun _ => mret tt).

End TokenStore.

(** ** mobile/lib/config.ts *)

Module Config.

Definition FALLBACK_URL : string := "https://jobflow-backend-bhvw.onrender.com".

(** [a ?? b] on optional records *)
Definition coalesce {A} (a b : option A) : option A :=
  match a with Some _ => a | None => b end.

(** [a || b] where [a] is a string or [undefined] *)
Definition str_or (a : option string) (b : string) : string :=
  match a with
  | Some s => if str_truthy s then s else b
  | None => b
  end.

Definition readExtra (c : ExpoConstants) : Extra :=
  default (mkExtra None)
    (coalesce (expoConfig c ≫= extra)
       (coalesce (manifest c ≫= extra)
          (manifest2 c ≫= extra))).

Definition API_BASE_URL (P : Platform) : string :=
  let extra := readExtra (Constants P) in
  str_or (apiBaseUrl extra)
    (str_or (process_env P !! "EXPO_PUBLIC_API_BASE_URL")
       FALLBACK_URL).

Definition getApiBaseUrl (P : Platform) : string := API_BASE_URL P.

End Config.

(** ** mobile/lib/api.ts *)

Module Api.
Import TokenStore.

(** [s.includes(needle)] *)
Fixpoint includes (needle s : string) : bool :=
  String.prefix needle s ||
  match s with
  | EmptyString => false
  | String _ rest => includes needle rest
  end.

(** Characters [encodeURIComponent] leaves alone: letters, digits and
    [- _ . ! ~ * ' ( )]. *)
Definition unreserved (c : ascii) : bool :=
  let n := nat_of_ascii c in
  (Nat.leb 65 n && Nat.leb n 90) || (Nat.leb 97 n && Nat.leb n 122) ||
  (Nat.leb 48 n && Nat.leb n 57) ||
  existsb (Ascii.eqb c) ["-"; "_"; "."; "!"; "~"; "*"; "'"; "("; ")"]%char.

Definition hex_digit (n : nat) : ascii :=
  nth n (list_ascii_of_string "0123456789ABCDEF") "0"%char.

Definition percent_encode (c : ascii) : string :=
  let n := nat_of_ascii c in
  String "%" (String (hex_digit (n / 16)) (String (hex_digit (n mod 16)) EmptyString)).

(** [encodeURIComponent] over the UTF-8 bytes of a string. *)
Fixpoint encodeURIComponent (s : string) : string :=
  match s with
  | EmptyString => EmptyString
  | String c rest =>
      if unreserved c then String c (encodeURIComponent rest)
      else percent_encode c +:+ encodeURIComponent rest
  end.

(** The optional [jobId?: number | null] argument; job identifiers are
    integers. *)
Inductive JobIdArg :=
| JobIdUndefined
| JobIdNull
| JobId (n : Z).

Definition withJobId (path : string) (jobId : JobIdArg) : string :=
  match jobId with
  | JobIdNull | JobIdUndefined => path
  | JobId n =>
      let join := if includes "?" path then "&" else "?" in
      path +:+ join +:+ "job_id=" +:+ encodeURIComponent (String_of_int n)
  end.

Definition SESSION_EXPIRED : string := "Session expired. Please log in again.".

(** The [msg] expression of the [!res.ok] branch:
    [(data && (data.detail || data.message)) ||
     (typeof data is string ? data : empty) || `Request failed (${res.status})`]. *)
Definition error_msg (res : Response) (data : JSValue) : JSValue :=
  or_else
    (or_else
       (if truthy data
        then or_else (get_prop data "detail") (get_prop data "message")
        else data)
       (if is_string data then data else JString EmptyString))
    (JString ("Request failed (" +:+ String_of_int (status res) +:+ ")")).

(** The [headers] object of [request], once the token has been read. *)
Definition build_headers (token : option string) : gmap string string :=
  let headers : gmap string string := {[ "Content-Type" := "application/json" ]} in
  match token with
  | Some t => if str_truthy t then <["Authorization" := "Bearer " +:+ t]> headers
              else headers
  | None => headers
  end.

Section WithPlatform.

Variable P : Platform.

Definition BASE_URL : string := Config.getApiBaseUrl P.

Definition fetch (url : string) (init : RequestInit) : Async Response :=
  emit (EvFetch url init);;
  match network P url init with
  | Some res => mret res
  | None => throw TransportFailure
  end.

(** [res.text()] *)
Definition text (res : Response) : Async string :=
  emit EvText;;
  mret (body_text res).

(** [JSON.parse(text)], which throws on malformed input *)
Definition parse (text : string) : Async JSValue :=
  emit (EvJsonParse text);;
  match JSON_parse P text with
  | Some v => mret v
  | None => throw SyntaxError
  end.

(** What [throw new Error(msg)] throws: the error whose message is [msg]
    converted to a string, or the TypeError of that conversion. *)
Definition Error (msg : JSValue) : Exn :=
  match ToString (Number_toString P) msg with
  | Some message => JsError message
  | None => TypeError
  end.

(** The [init] object literal that [request] hands to [fetch]. *)
Definition build_init (method : HttpMethod) (token : option string) (body : JSValue)
  : RequestInit :=
  mkInit method (build_headers token)
    (if negb (is_undefined body) then Some (JSON_stringify P body) else None).

Definition request (path : string) (method : HttpMethod) (body : JSValue)
  : Async JSValue :=
  token ← getToken;
  res ← fetch (BASE_URL +:+ path) (build_init method token body);
  if (status res =? 401)%Z then
    clearToken;;
    throw (Error (JString SESSION_EXPIRED))
  else
    text ← text res;
    data ← try_catch
             (if str_truthy text then parse text else mret JNull)
             (fun _ => mret (JString text));
    if negb (ok res) then throw (Error (error_msg res data))
    else mret data.

Definition getInvoices (jobId : JobIdArg) : Async JSValue :=
  request (withJobId "/invoices" jobId) GET JUndefined.

Definition getExpenses (jobId : JobIdArg) : Async JSValue :=
  request (withJobId "/expenses" jobId) GET JUndefined.

Definition getMileage (jobId : JobIdArg) : Async JSValue :=
  request (withJobId "/mileage" jobId) GET JUndefined.

End WithPlatform.

End Api.

(** ** mobile/app/(tabs)/reports.tsx *)

Module Reports.

Definition dquote : ascii := "034"%char.
Definition LF : ascii := "010"%char.
Definition CR : ascii := "013"%char.

(** The character class of the pattern that [csvEscape] tests: a double
    quote, a comma, a line feed or a carriage return. *)
Definition special (c : ascii) : bool :=
  Ascii.eqb c dquote || Ascii.eqb c "," || Ascii.eqb c LF || Ascii.eqb c CR.

(** [re.test(s)] for that pattern *)
Fixpoint test_special (s : string) : bool :=
  match s with
  | EmptyString => false
  | String c rest => special c || test_special rest
  end.

(** The global [replace] of [csvEscape]: every double quote becomes two. *)
Fixpoint double_quotes (s : string) : string :=
  match s with
  | EmptyString => EmptyString
  | String c rest =>
      if Ascii.eqb c dquote then String dquote (String dquote (double_quotes rest))
      else String c (double_quotes rest)
  end.

(** [None] is the TypeError of [String(v ?? "")]. *)
Definition csvEscape (P : Platform) (v : JSValue) : option string :=
  s ← ToString (Number_toString P) (nullish_or v (JString EmptyString));
  Some (if test_special s
        then String dquote (double_quotes s +:+ String dquote EmptyString)
        else s).

(** One line of [shareCsv]: the escaped cells joined by commas. *)
Definition csvRow (P : Platform) (cells : list JSValue) : option string :=
  join "," <$> mapM (csvEscape P) cells.

(** *** Reading a record back

    The reader that a consumer of the exported file applies to one record,
    after RFC 4180: fields are separated by commas; a field may be enclosed
    in double quotes, inside which commas and line breaks are data and two
    double quotes stand for one; a line break outside quotes ends the
    record. The result lists the fields, the one being read first. *)

Definition push (c : ascii) (fields : list string) : list string :=
  match fields with
  | [] => [String c EmptyString]
  | f :: rest => String c f :: rest
  end.

Fixpoint readRecord (quoted : bool) (s : string) : list string :=
  match s with
  | EmptyString => [EmptyString]
  | String c rest =>
      if quoted then
        if Ascii.eqb c dquote then
          match rest with
          | String c' rest' =>
              if Ascii.eqb c' dquote then push dquote (readRecord true rest')
              else readRecord false rest
          | EmptyString => [EmptyString]
          end
        else push c (readRecord true rest)
      else
        if Ascii.eqb c "," then EmptyString :: readRecord false rest
        else if Ascii.eqb c dquote then readRecord true rest
        else if Ascii.eqb c LF || Ascii.eqb c CR then [EmptyString]
        else push c (readRecord false rest)
  end.

Definition readRow (line : string) : list string := readRecord false line.

End Reports.

(** ** mobile/lib/api.ts: endpoints *)

Module Endpoints.
Import Api.

Definition getJobs (P : Platform) : Async JSValue :=
  request P "/jobs" GET JUndefined.

Definition deleteJob (P : Platform) (jobId : Z) : Async JSValue :=
  request P ("/jobs/" +:+ String_of_int jobId) DELETE JUndefined.

(** The optional [params] of [getReceipts]; identifiers are integers. *)
Record ReceiptParams := mkReceiptParams {
  job_id : option Z;
  expense_id : option Z;
}.

(** [if (params?.field) q.push(name=...)]: an absent or zero identifier
    adds nothing. *)
Definition push_id (name : string) (id : option Z) (q : list string) : list string :=
  match id with
  | Some n =>
      if (n =? 0)%Z then q
      else (q ++ [name +:+ "=" +:+ encodeURIComponent (String_of_int n)])%list
  | None => q
  end.

(** The path that [getReceipts] requests. *)
Definition receiptsPath (params : option ReceiptParams) : string :=
  let q := [] in
  let q := push_id "job_id" (params ≫= job_id) q in
  let q := push_id "expense_id" (params ≫= expense_id) q in
  let suffix :=
    match q with
    | [] => EmptyString
    | _ :: _ => "?" +:+ join "&" q
    end in
  "/receipts" +:+ suffix.

Definition getReceipts (P : Platform) (params : option ReceiptParams) : Async JSValue :=
  request P (receiptsPath params) GET JUndefined.

(** [uploadReceiptToPresignedUrl]. A [fetch] without [init] is a GET with
    no headers and no body; a blob is identified with the bytes of the body
    it was read from, and reading it leaves no event. *)
Definition uploadReceiptToPresignedUrl
    (P : Platform) (uploadUrl fileUri contentType : string) : Async unit :=
  res ← fetch P fileUri (mkInit GET ∅ None);
  let blob := body_text res in
  put ← fetch P uploadUrl (mkInit PUT {[ "Content-Type" := contentType ]} (Some blob));
  if negb (ok put) then
    t ← try_catch (text put) (fun _ => mret EmptyString);
    throw (Error P (JString
      (Config.str_or (Some t) ("Upload failed (" +:+ String_of_int (status put) +:+ ")"))))
  else mret tt.

End Endpoints.

(** ** mobile/lib/auth.ts: login, signup, account deletion

    [request] returns the parsed body under an unchecked type, so [login]
    and [signup] hand [setAuth] whatever the [token] and [userId] properties
    of the response hold. *)

Module Auth.
Import SecureStore TokenStore Api.

(** [v.k] for a key that no prototype defines: a TypeError on [null] and
    [undefined]. *)
Definition member (v : JSValue) (k : string) : Async JSValue :=
  match v with
  | JUndefined | JNull => throw TypeError
  | _ => mret (get_prop v k)
  end.

(** [SecureStore.setItemAsync] with an unchecked value: the library rejects
    a value that is not a string before it calls the storage. *)
Definition setItemAsync_value (key : string) (value : JSValue) : Async unit :=
  match value with
  | JString s => setItemAsync key s
  | _ => throw StorageError
  end.

(** [setToken] with an unchecked token. *)
Definition setToken_value (token : JSValue) : Async unit :=
  try_catch
    (if negb (truthy token) then mret tt
     else setItemAsync_value TOKEN_KEY token)
    (fun _ => mret tt).

(** [setAuth] with an unchecked token and user id. *)
Definition setAuth_value (P : Platform) (token userId : JSValue) : Async unit :=
  setToken_value token;;
  match ToString (Number_toString P) userId with
  | Some s => setItemAsync USER_ID_KEY s
  | None => throw TypeError
  end.

Definition login (P : Platform) (email password : string) : Async JSValue :=
  res ← request P "/auth/login" POST
          (JObject [("email", JString email); ("password", JString password)]);
  token ← member res "token";
  userId ← member res "userId";
  setAuth_value P token userId;;
  mret res.

Definition signup (P : Platform) (email password : string) (full_name : option string)
  : Async JSValue :=
  res ← request P "/auth/signup" POST
          (JObject [("email", JString email);
                    ("password", JString password);
                    ("full_name", from_option JString JNull full_name)]);
  token ← member res "token";
  userId ← member res "userId";
  setAuth_value P token userId;;
  mret res.

Definition deleteAccount (P : Platform) : Async unit :=
  request P "/users/me" DELETE JUndefined;;
  clearAuth.

End Auth.

(** ** mobile/app/(tabs)/reports.tsx: the text of an export *)

Module ShareCsv.
Import Reports.





(** *** Reading an export back

    The reader of a whole file, after RFC 4180 with the line feed as the
    record separator that [shareCsv] writes: as [readRecord], except that a
    line feed outside quotes begins a new record. The result lists the
    records, the one being read first. *)





End ShareCsv.

(** ** A reference platform for concrete runs

    The theorems below hold for every [Platform]. To run the code on
    concrete inputs, this module supplies one: a JSON reader and printer for
    the fragment of JSON whose strings have no escape sequences and whose
    numbers are integers below 2^53 in magnitude, on which they agree with
    the real [JSON.parse] and [JSON.stringify]. A text outside the fragment
    is reported as malformed, a number outside it prints as [NaN], and
    [Number] reads the plain decimal integers only. None of the theorems
    depends on these choices. *)
Module Sample.
Import Reports.

Definition float_of_Z (z : Z) : float :=
  if (0 <=? z)%Z then PrimFloat.of_uint63 (Uint63.of_Z z)
  else PrimFloat.opp (PrimFloat.of_uint63 (Uint63.of_Z (- z))).

Definition Z_of_float (f : float) : option Z :=
  match FloatOps.Prim2SF f with
  | SpecFloat.S754_zero _ => Some 0%Z
  | SpecFloat.S754_finite s m e =>
      let mag :=
        if (0 <=? e)%Z then Some (Z.pos m * 2 ^ e)%Z
        else if (Z.pos m mod 2 ^ (- e) =? 0)%Z then Some (Z.pos m / 2 ^ (- e))%Z
        else None in
      (fun z => if s then (- z)%Z else z) <$> mag
  | _ => None
  end.

Definition Number_toString (f : float) : string :=
  match Z_of_float f with
  | Some z => String_of_int z
  | None => "NaN"
  end.

Definition is_digit (c : ascii) : bool :=
  Nat.leb 48 (nat_of_ascii c) && Nat.leb (nat_of_ascii c) 57.

Definition digit_value (c : ascii) : Z := Z.of_nat (nat_of_ascii c - 48).

(** The digits at the head of [s], as a number, and what follows them. *)
Fixpoint read_digits (acc : Z) (s : string) : Z * string :=
  match s with
  | String c rest =>
      if is_digit c then read_digits (10 * acc + digit_value c) rest
      else (acc, s)
  | EmptyString => (acc, s)
  end.

Definition starts_with_digit (s : string) : bool :=
  match s with String c _ => is_digit c | EmptyString => false end.

Definition starts_fraction (s : string) : bool :=
  match s with
  | String c _ => Ascii.eqb c "." || Ascii.eqb c "e" || Ascii.eqb c "E"
  | EmptyString => false
  end.

(** An integer literal: no leading zero, no fraction, no exponent. *)
Definition read_int (s : string) : option (Z * string) :=
  if starts_with_digit s then
    let (n, rest) :=
      match s with
      | String "0" rest => (0%Z, rest)
      | _ => read_digits 0 s
      end in
    if starts_with_digit rest || starts_fraction rest || (2 ^ 53 <=? n)%Z
    then None else Some (n, rest)
  else None.

Definition Number_of_string (s : string) : float :=
  match s with
  | String "-" rest =>
      match read_int rest with
      | Some (n, EmptyString) => PrimFloat.opp (float_of_Z n)
      | _ => PrimFloat.nan
      end
  | _ =>
      match read_int s with
      | Some (n, EmptyString) => float_of_Z n
      | _ => PrimFloat.nan
      end
  end.

Definition is_ws (c : ascii) : bool :=
  Ascii.eqb c " " || Ascii.eqb c "009" || Ascii.eqb c LF || Ascii.eqb c CR.

Fixpoint skip_ws (s : string) : string :=
  match s with
  | String c rest => if is_ws c then skip_ws rest else s
  | EmptyString => s
  end.

(** The body of a string literal, after its opening quote. *)
Fixpoint read_string (s : string) : option (string * string) :=
  match s with
  | EmptyString => None
  | String c rest =>
      if Ascii.eqb c dquote then Some (EmptyString, rest)
      else if Ascii.eqb c "\" || Nat.ltb (nat_of_ascii c) 32 then None
      else '(str, rest') ← read_string rest; Some (String c str, rest')
  end.

Fixpoint strip_prefix (p s : string) : option string :=
  match p, s with
  | EmptyString, _ => Some s
  | String a p', String b s' => if Ascii.eqb a b then strip_prefix p' s' else None
  | String _ _, EmptyString => None
  end.

(** Setting a property keeps the position of an existing key. *)
Fixpoint obj_set (k : string) (v : JSValue) (props : list (string * JSValue))
  : list (string * JSValue) :=
  match props with
  | [] => [(k, v)]
  | (k', v') :: rest =>
      if String.eqb k k' then (k, v) :: rest else (k', v') :: obj_set k v rest
  end.

Section Sequences.
Context {A : Type} (element : string -> option (A * string)) (close : ascii).

  (** Elements separated by commas, up to the closing bracket. *)
Fixpoint read_seq (fuel : nat) (s : string) : option (list A * string) :=
    match fuel with
    | O => None
    | S fuel =>
        '(x, rest) ← element s;
        match skip_ws rest with
        | String c rest' =>
            if Ascii.eqb c close then Some ([x], rest')
            else if Ascii.eqb c "," then
              '(xs, rest'') ← read_seq fuel rest'; Some (x :: xs, rest'')
            else None
        | EmptyString => None
        end
    end.
End Sequences.

Fixpoint read_value (fuel : nat) (s : string) : option (JSValue * string) :=
  match fuel with
  | O => None
  | S fuel =>
      let member (s : string) : option ((string * JSValue) * string) :=
        match skip_ws s with
        | String c rest =>
            if Ascii.eqb c dquote then
              '(k, rest') ← read_string rest;
              match skip_ws rest' with
              | String ":" rest'' =>
                  '(v, rest''') ← read_value fuel rest''; Some ((k, v), rest''')
              | _ => None
              end
            else None
        | EmptyString => None
        end in
      match skip_ws s with
      | EmptyString => None
      | String c rest =>
          if Ascii.eqb c dquote then
            '(str, rest') ← read_string rest; Some (JString str, rest')
          else if Ascii.eqb c "[" then
            match skip_ws rest with
            | String "]" rest' => Some (JArray [], rest')
            | _ => '(xs, rest') ← read_seq (read_value fuel) "]" fuel rest;
                   Some (JArray xs, rest')
            end
          else if Ascii.eqb c "{" then
            match skip_ws rest with
            | String "}" rest' => Some (JObject [], rest')
            | _ => '(ms, rest') ← read_seq member "}" fuel rest;
                   Some (JObject (fold_left (fun o m => obj_set (fst m) (snd m) o) ms []),
                         rest')
            end
          else if Ascii.eqb c "-" then
            '(n, rest') ← read_int rest;
            Some (JNumber (PrimFloat.opp (float_of_Z n)), rest')
          else if is_digit c then
            '(n, rest') ← read_int (String c rest); Some (JNumber (float_of_Z n), rest')
          else
            match strip_prefix "null" (String c rest) with
            | Some rest' => Some (JNull, rest')
            | None =>
                match strip_prefix "true" (String c rest) with
                | Some rest' => Some (JBool true, rest')
                | None =>
                    match strip_prefix "false" (String c rest) with
                    | Some rest' => Some (JBool false, rest')
                    | None => None
                    end
                end
            end
      end
  end.

Definition JSON_parse (s : string) : option JSValue :=
  match read_value (S (String.length s)) s with
  | Some (v, rest) =>
      match skip_ws rest with
      | EmptyString => Some v
      | String _ _ => None
      end
  | None => None
  end.

Definition hex_lower (n : nat) : ascii :=
  nth n (list_ascii_of_string "0123456789abcdef") "0"%char.

(** One character of a string, as [JSON.stringify] quotes it. *)
Definition quote_char (c : ascii) : string :=
  let n := nat_of_ascii c in
  if Ascii.eqb c dquote then String "\" (String dquote EmptyString)
  else if Ascii.eqb c "\" then "\\"
  else if Ascii.eqb c "008" then "\b"
  else if Ascii.eqb c "009" then "\t"
  else if Ascii.eqb c LF then "\n"
  else if Ascii.eqb c "012" then "\f"
  else if Ascii.eqb c CR then "\r"
  else if Nat.ltb n 32 then
    "\u00" +:+ String (hex_lower (n / 16)) (String (hex_lower (n mod 16)) EmptyString)
  else String c EmptyString.

Fixpoint quote_chars (s : string) : string :=
  match s with
  | EmptyString => EmptyString
  | String c rest => quote_char c +:+ quote_chars rest
  end.

Definition quote (s : string) : string :=
  String dquote (quote_chars s +:+ String dquote EmptyString).

Definition print_number (f : float) : string :=
  match Z_of_float f with
  | Some z => String_of_int z
  | None => "null"
  end.

(** [JSON.stringify] of a defined value. Inside an array [undefined] prints
    as [null]; a property whose value is [undefined] is left out. *)
Fixpoint JSON_stringify (v : JSValue) : string :=
  match v with
  | JUndefined | JNull => "null"
  | JBool true => "true"
  | JBool false => "false"
  | JNumber n => print_number n
  | JString s => quote s
  | JArray items => "[" +:+ join "," (map JSON_stringify items) +:+ "]"
  | JObject props =>
      "{" +:+
      join ","
        ((fix members (ps : list (string * JSValue)) : list string :=
            match ps with
            | [] => []
            | (k, x) :: rest =>
                match x with
                | JUndefined => members rest
                | _ => (quote k +:+ ":" +:+ JSON_stringify x) :: members rest
                end
            end) props) +:+
      "}"
  end.

(** The reference platform over a given network, build-time constants and
    process environment. *)
Definition platform (net : string -> RequestInit -> option Response)
    (c : ExpoConstants) (env : gmap string string) : Platform :=
  mkPlatform JSON_parse JSON_stringify Number_toString Number_of_string net c env.

(** A network that answers every request with the same response. *)
Definition always (res : Response) : string -> RequestInit -> option Response :=
  fun _ _ => Some res.

Definition no_constants : ExpoConstants := mkConstants None None None.

(** A world with the given storage contents, working storage and no effects
    performed yet. *)
Definition world (items : gmap string string) : World := mkWorld items [] [].

(** The text of the JSON object whose [detail] is the empty string and whose
    [message] is [Y]. *)
Definition falsy_detail_body : string :=
  "{" +:+ quote "detail" +:+ ":" +:+ quote EmptyString +:+ "," +:+
  quote "message" +:+ ":" +:+ quote "Y" +:+ "}".

(** The text of the JSON object whose [detail] is [Invoice not found]. *)
Definition detail_body : string :=
  "{" +:+ quote "detail" +:+ ":" +:+ quote "Invoice not found" +:+ "}".

End Sample.

(** ** The specification's wording of the response handling

    Two definitions that follow the specification rather than the code, to
    compare [request] with: the value a body text is parsed to, and the
    priority order of the error message, both with the conditions under
    which the code takes each alternative. *)
Module Spec.

(** An empty body is [null]; any other body is its JSON value, or the text
    itself when it is not JSON. *)
Definition parsed_body (P : Platform) (text : string) : JSValue :=
  if str_truthy text then default (JString text) (JSON_parse P text)
  else JNull.

(** The message of a failed request: a truthy [detail] of the parsed body,
    else a truthy [message], else the parsed body when it is a non-empty
    string, else the synthesized text with the status. *)
Definition message_by_priority (res : Response) (data : JSValue) : JSValue :=
  if truthy data && truthy (get_prop data "detail") then get_prop data "detail"
  else if truthy data && truthy (get_prop data "message") then get_prop data "message"
  else if is_string data && truthy data then data
  else JString ("Request failed (" +:+ String_of_int (status res) +:+ ")").

End Spec.

(** * Properties *)

(** Unfolding of the monadic plumbing. *)
Ltac run :=
  unfold mbind, Async_bind, mret, Async_ret, try_catch, throw, emit,
    SecureStore.fault, after_call, faulted in *;
  simpl in *.

Ltac by_schedule w :=
  destruct w as [items fs tr]; run; destruct fs as [|[|] fs]; simpl; try reflexivity.

(** ** The secure storage *)

Section SecureStoreFacts.

Import SecureStore.
Variables (key value : string) (w : World).

Lemma getItemAsync_run :
  getItemAsync key w =
  (if faulted w then Throw StorageError else Return (secure w !! key),
   after_call (EvGetItem key) (secure w) w).
Proof. unfold getItemAsync. by_schedule w. Qed.

Lemma setItemAsync_run :
  setItemAsync key value w =
  (if faulted w then Throw StorageError else Return tt,
   after_call (EvSetItem key value)
     (if faulted w then secure w else <[key := value]> (secure w)) w).
Proof. unfold setItemAsync. by_schedule w. Qed.

Lemma deleteItemAsync_run :
  deleteItemAsync key w =
  (if faulted w then Throw StorageError else Return tt,
   after_call (EvDeleteItem key)
     (if faulted w then secure w else delete key (secure w)) w).
Proof. unfold deleteItemAsync. by_schedule w. Qed.

End SecureStoreFacts.

(** ** The token store *)

Module TokenStoreFacts.
Import SecureStore TokenStore.

Lemma getToken_run (w : World) :
  getToken w =
  (Return (if faulted w then None else secure w !! TOKEN_KEY),
   after_call (EvGetItem TOKEN_KEY) (secure w) w).
Proof. unfold getToken, getItemAsync. by_schedule w. Qed.

Lemma setToken_run (token : string) (w : World) :
  setToken token w =
  (Return tt,
   if str_truthy token
   then after_call (EvSetItem TOKEN_KEY token)
          (if faulted w then secure w else <[TOKEN_KEY := token]> (secure w)) w
   else w).
Proof.
  unfold setToken, setItemAsync. destruct token as [|c token]; simpl.
  - reflexivity.
  - by_schedule w.
Qed.

Lemma clearToken_run (w : World) :
  clearToken w =
  (Return tt,
   after_call (EvDeleteItem TOKEN_KEY)
     (if faulted w then secure w else delete TOKEN_KEY (secure w)) w).
Proof. unfold clearToken, deleteItemAsync. by_schedule w. Qed.

Lemma getUserId_returns (P : Platform) (w : World) :
  returns (getUserId P w) = true.
Proof. unfold getUserId, getItemAsync. by_schedule w. Qed.

Lemma clearAuth_run (w : World) :
  let w1 := snd (clearToken w) in
  clearAuth w =
  (Return tt,
   after_call (EvDeleteItem USER_ID_KEY)
     (if faulted w1 then secure w1 else delete USER_ID_KEY (secure w1)) w1).
Proof.
  unfold clearAuth. cbv zeta. unfold mbind at 1, Async_bind.
  rewrite clearToken_run. cbn [snd].
  generalize (after_call (EvDeleteItem TOKEN_KEY)
     (if faulted w then secure w else delete TOKEN_KEY (secure w)) w).
  intros w1. unfold deleteItemAsync. by_schedule w1.
Qed.

(** X1: five of the six operations complete normally whatever the storage
    does: reads degrade to an absent credential, writes and deletions are
    dropped. *)
Lemma guarded_operations_return (P : Platform) (token : string) (w : World) :
  returns (getToken w) = true /\
  returns (setToken token w) = true /\
  returns (clearToken w) = true /\
  returns (getUserId P w) = true /\
  returns (clearAuth w) = true.
Proof.
  rewrite getToken_run, setToken_run, clearToken_run, clearAuth_run.
  rewrite getUserId_returns. repeat split.
Qed.

(** A failed read is an absent credential. *)
Lemma reads_degrade (P : Platform) (w : World) :
  faulted w = true ->
  fst (getToken w) = Return None /\ fst (getUserId P w) = Return None.
Proof.
  intros Hf. rewrite getToken_run, Hf. split; [reflexivity|].
  unfold getUserId, getItemAsync. destruct w as [items [|[|] fs] tr]; run; try discriminate.
  reflexivity.
Qed.

(** X2: [clearAuth] always attempts both deletions, the token first, also
    after a failed deletion of the token; when the storage works both keys
    are gone afterwards. *)
Lemma clearAuth_clears_both (w : World) :
  let w' := snd (clearAuth w) in
  events_since w w' = [EvDeleteItem TOKEN_KEY; EvDeleteItem USER_ID_KEY] /\
  (faults w = [] ->
   secure w' !! TOKEN_KEY = None /\ secure w' !! USER_ID_KEY = None).
Proof.
  cbv zeta. rewrite clearAuth_run. cbv zeta. rewrite clearToken_run. cbn [snd].
  destruct w as [items fs tr]. unfold events_since, after_call. cbn [trace secure faults].
  split.
  - rewrite <- app_assoc. rewrite drop_app_length. reflexivity.
  - intros ->. cbn. split.
    + rewrite lookup_delete_ne by discriminate. apply lookup_delete_eq.
    + apply lookup_delete_eq.
Qed.

(** C4 (violated by [setAuth]): the write of the user id is not guarded, so
    when the storage rejects it [setAuth] rejects too, with the storage
    error, although the token was written. Failing input: token [abc],
    user id [7], a storage whose second call fails. *)
Theorem setAuth_surfaces_storage_failure :
  let w := mkWorld ∅ [false; true] [] in
  returns (setAuth "abc" 7 w) = false /\
  fst (setAuth "abc" 7 w) = Throw StorageError /\
  secure (snd (setAuth "abc" 7 w)) !! TOKEN_KEY = Some "abc" /\
  secure (snd (setAuth "abc" 7 w)) !! USER_ID_KEY = None.
Proof. cbv zeta. vm_compute. repeat split. Qed.

(** [setAuth] completes normally exactly when the storage accepts the write
    of the user id. *)
Lemma setAuth_returns_iff (token : string) (userId : Z) (w : World) :
  returns (setAuth token userId w) = negb (faulted (snd (setToken token w))).
Proof.
  unfold setAuth. unfold mbind at 1, Async_bind. rewrite setToken_run. cbn [snd].
  rewrite setItemAsync_run.
  match goal with |- context [faulted ?x] => destruct (faulted x) end; reflexivity.
Qed.

(** C6: storing the empty token does nothing at all, so the token read
    afterwards is the one that would have been read before; a token [t]
    held by a working storage is still read as [t]. *)
Theorem setToken_empty_keeps_token (t : string) (w : World) :
  setToken EmptyString w = (Return tt, w) /\
  (setToken EmptyString;; getToken) w = getToken w /\
  (secure w !! TOKEN_KEY = Some t -> faulted w = false ->
   fst ((setToken EmptyString;; getToken) w) = Return (Some t)) /\
  (str_truthy t = true -> faults w = [] ->
   fst ((setToken t;; setToken EmptyString;; getToken) w) = Return (Some t)).
Proof.
  assert (H0 : setToken EmptyString w = (Return tt, w)) by reflexivity.
  assert (H1 : (setToken EmptyString;; getToken) w = getToken w) by reflexivity.
  repeat split; try assumption.
  - intros Hs Hf. rewrite H1, getToken_run, Hf, Hs. reflexivity.
  - intros Ht Hw. unfold mbind at 1, Async_bind. rewrite setToken_run, Ht.
    change ((setToken EmptyString;; getToken) ?x) with (getToken x).
    rewrite getToken_run. destruct w as [items fs tr]. cbn in Hw. subst fs.
    cbn. rewrite lookup_insert_eq. reflexivity.
Qed.

End TokenStoreFacts.

(** ** The request dispatcher *)

Module ApiFacts.
Import SecureStore TokenStore TokenStoreFacts Api.

Lemma error_msg_priority (res : Response) (data : JSValue) :
  error_msg res data = Spec.message_by_priority res data.
Proof.
  unfold error_msg, Spec.message_by_priority, or_else.
  destruct (truthy data) eqn:Hd,
    (truthy (get_prop data "detail")) eqn:H1,
    (truthy (get_prop data "message")) eqn:H2,
    (is_string data) eqn:Hs;
    repeat (cbn [andb]; rewrite ?Hd, ?H1, ?H2); reflexivity.
Qed.

(** What a call of [request] does, step by step. *)
Lemma request_run (P : Platform) path method body (w : World) :
  let tok := if faulted w then None else secure w !! TOKEN_KEY in
  let url := BASE_URL P +:+ path in
  let init := build_init P method tok body in
  let w2 := record (EvFetch url init) (after_call (EvGetItem TOKEN_KEY) (secure w) w) in
  request P path method body w =
  match network P url init with
  | None => (Throw TransportFailure, w2)
  | Some res =>
      if (status res =? 401)%Z
      then (Throw (JsError SESSION_EXPIRED), snd (clearToken w2))
      else
        let w3 := record EvText w2 in
        (if ok res then Return (Spec.parsed_body P (body_text res))
         else Throw (Error P (error_msg res (Spec.parsed_body P (body_text res)))),
         if str_truthy (body_text res)
         then record (EvJsonParse (body_text res)) w3 else w3)
  end.
Proof.
  cbv zeta. unfold request. unfold mbind at 1, Async_bind.
  rewrite getToken_run.
  set (tok := if faulted w then None else secure w !! TOKEN_KEY).
  set (w1 := after_call _ _ w).
  unfold fetch, mbind, Async_bind, emit. cbn [fst snd].
  destruct (network P _ _) as [res|]; [|reflexivity].
  unfold mret, Async_ret.
  destruct (status res =? 401)%Z.
  - rewrite clearToken_run. reflexivity.
  - unfold text, Spec.parsed_body, parse, try_catch, mbind, Async_bind, emit,
      mret, Async_ret, throw.
    destruct (body_text res) as [|c s]; cbn [str_truthy].
    + destruct (ok res); reflexivity.
    + destruct (JSON_parse P (String c s)); cbn [default];
        destruct (ok res); reflexivity.
Qed.

Lemma events_since_app (w w' : World) (evs : list Event) :
  trace w' = (trace w ++ evs)%list -> events_since w w' = evs.
Proof. intros H. unfold events_since. rewrite H. apply drop_app_length. Qed.

(** The effects of a call of [request], in order: the token is read, the
    request is sent, and then either the token is deleted (status 401) or
    the body is read as text and, unless empty, handed to [JSON.parse]. *)
Lemma request_events (P : Platform) path method body (w : World) :
  let tok := if faulted w then None else secure w !! TOKEN_KEY in
  let url := BASE_URL P +:+ path in
  let init := build_init P method tok body in
  events_since w (snd (request P path method body w)) =
  EvGetItem TOKEN_KEY :: EvFetch url init ::
  match network P url init with
  | None => []
  | Some res =>
      if (status res =? 401)%Z then [EvDeleteItem TOKEN_KEY]
      else EvText ::
           (if str_truthy (body_text res) then [EvJsonParse (body_text res)] else [])
  end.
Proof.
  cbv zeta. rewrite request_run. cbv zeta.
  apply events_since_app.
  destruct (network P _ _) as [res|]; cbn [snd].
  - destruct (status res =? 401)%Z; cbn [snd].
    + rewrite clearToken_run. cbn. rewrite <- !app_assoc. reflexivity.
    + destruct (str_truthy (body_text res)); cbn; rewrite <- !app_assoc; reflexivity.
  - cbn. rewrite <- !app_assoc. reflexivity.
Qed.

Lemma getToken_inv (w w1 : World) (tok : option string) :
  getToken w = (Return tok, w1) ->
  tok = (if faulted w then None else secure w !! TOKEN_KEY) /\
  w1 = after_call (EvGetItem TOKEN_KEY) (secure w) w.
Proof. rewrite getToken_run. intros [= <- <-]. split; reflexivity. Qed.

(** C1: whatever the body of a response with status 401, [request] rejects
    with the session-expired error after exactly three effects (the token
    read, the request, the deletion of the token), so the body is neither
    read as text nor parsed; the world it leaves is the one [clearToken]
    leaves right after the fetch, and unless the storage rejects that
    deletion the token is gone and is read as absent from then on. *)
Theorem request_401_expires_session
    (P : Platform) path method body (w w1 : World) tok (res : Response) :
  getToken w = (Return tok, w1) ->
  network P (BASE_URL P +:+ path) (build_init P method tok body) = Some res ->
  status res = 401%Z ->
  let sent := EvFetch (BASE_URL P +:+ path) (build_init P method tok body) in
  let w' := snd (request P path method body w) in
  fst (request P path method body w) = Throw (JsError SESSION_EXPIRED) /\
  events_since w w' = [EvGetItem TOKEN_KEY; sent; EvDeleteItem TOKEN_KEY] /\
  text_reads (events_since w w') = 0 /\
  parses (events_since w w') = [] /\
  w' = snd (clearToken (record sent w1)) /\
  (faulted w1 = false ->
   secure w' !! TOKEN_KEY = None /\ fst (getToken w') = Return None).
Proof.
  intros Hget Hnet H401. apply getToken_inv in Hget as [-> ->]. cbv zeta.
  rewrite request_events. cbv zeta. rewrite request_run. cbv zeta.
  rewrite Hnet, H401. cbn [Z.eqb Pos.eqb fst snd].
  do 5 (split; [reflexivity|]).
  intros Hf. rewrite clearToken_run. cbn [snd]. rewrite getToken_run. cbn [fst].
  change (faulted (record ?e ?x)) with (faulted x). rewrite Hf.
  cbn [secure after_call]. rewrite lookup_delete_eq.
  split; [reflexivity|].
  destruct (faulted (after_call (EvDeleteItem _) _ _)); reflexivity.
Qed.

(** C3: [request] sends exactly one request. Its headers always hold the
    JSON content type. With a token read from the store (non-empty) they
    hold, besides, [Authorization] with the value [Bearer] followed by the
    token, and nothing else; with no token (absent or empty) they hold the
    content type alone, so no [Authorization] key. The token read is the
    stored one unless the storage read fails. *)
Theorem request_authorization_header
    (P : Platform) path method body (w : World) :
  exists tok w1 init,
    getToken w = (Return tok, w1) /\
    tok = (if faulted w then None else secure w !! TOKEN_KEY) /\
    fetches (events_since w (snd (request P path method body w))) =
      [(BASE_URL P +:+ path, init)] /\
    init_headers init !! "Content-Type" = Some "application/json" /\
    (forall t, tok = Some t -> t <> EmptyString ->
       init_headers init !! "Authorization" = Some ("Bearer " +:+ t) /\
       init_headers init =
         <["Authorization" := "Bearer " +:+ t]> {[ "Content-Type" := "application/json" ]}) /\
    (tok = None \/ tok = Some EmptyString ->
       init_headers init !! "Authorization" = None /\
       init_headers init = {[ "Content-Type" := "application/json" ]}).
Proof.
  eexists _, _, _. split; [apply getToken_run|]. split; [reflexivity|].
  rewrite request_events. cbv zeta.
  set (tok := if faulted w then None else secure w !! TOKEN_KEY).
  split.
  { destruct (network P _ _) as [res|]; [|reflexivity].
    destruct (status res =? 401)%Z; [reflexivity|].
    destruct (str_truthy (body_text res)); reflexivity. }
  unfold build_init, build_headers. cbn [init_headers].
  subst tok. generalize (if faulted w then None else secure w !! TOKEN_KEY).
  intros tok. split; [|split].
  - destruct tok as [[|c t]|]; cbn [str_truthy].
    + apply lookup_singleton_eq.
    + rewrite lookup_insert_ne by discriminate. apply lookup_singleton_eq.
    + apply lookup_singleton_eq.
  - intros t -> Ht. destruct t as [|c t]; [congruence|]. cbn [str_truthy].
    split; [apply lookup_insert_eq|reflexivity].
  - intros [->| ->]; cbn [str_truthy]; (split; [|reflexivity]);
      apply lookup_singleton_ne; discriminate.
Qed.

(** C7: the one request that [request] sends has no body when the [body]
    argument is [undefined], and otherwise has as its body exactly
    [JSON.stringify] of the argument ([null] included). *)
Theorem request_body_transmitted
    (P : Platform) path method body (w : World) :
  map (fun call => init_body (snd call))
    (fetches (events_since w (snd (request P path method body w)))) =
  [if is_undefined body then None else Some (JSON_stringify P body)].
Proof.
  rewrite request_events. cbv zeta. unfold build_init.
  destruct (is_undefined body); cbn [negb];
    (destruct (network P _ _) as [res|]; [|reflexivity]);
    (destruct (status res =? 401)%Z; [reflexivity|]);
    destruct (str_truthy (body_text res)); reflexivity.
Qed.

Lemma str_truthy_iff (s : string) : str_truthy s = true <-> s <> EmptyString.
Proof. destruct s; cbn; split; congruence. Qed.

(** The outcome of [request] on a response whose status is not 401. *)
Lemma request_outcome
    (P : Platform) path method body (w w1 : World) tok (res : Response) :
  getToken w = (Return tok, w1) ->
  network P (BASE_URL P +:+ path) (build_init P method tok body) = Some res ->
  status res <> 401%Z ->
  fst (request P path method body w) =
  if ok res then Return (Spec.parsed_body P (body_text res))
  else Throw (Error P (Spec.message_by_priority res (Spec.parsed_body P (body_text res)))).
Proof.
  intros Hget Hnet H401. apply getToken_inv in Hget as [-> ->].
  rewrite request_run. cbv zeta. rewrite Hnet.
  apply Z.eqb_neq in H401. rewrite H401. cbn [fst].
  rewrite error_msg_priority. reflexivity.
Qed.

Lemma message_of_text (res : Response) (text : string) :
  text <> EmptyString ->
  Spec.message_by_priority res (JString text) = JString text.
Proof. destruct text; [congruence|reflexivity]. Qed.

(** C8, as the code has it: a response whose status is not 401 has its body
    read as text, once. An empty text is [null] and is not parsed. Any
    other text is handed to [JSON.parse], once; when that fails the text
    itself is the parsed value, returned on success and used as the error
    message otherwise. The failure of the parse never escapes. *)
Theorem request_parses_leniently
    (P : Platform) path method body (w w1 : World) tok (res : Response) :
  getToken w = (Return tok, w1) ->
  network P (BASE_URL P +:+ path) (build_init P method tok body) = Some res ->
  status res <> 401%Z ->
  let text := body_text res in
  let data := Spec.parsed_body P text in
  let run := request P path method body w in
  let evs := events_since w (snd run) in
  text_reads evs = 1 /\
  parses evs = (if str_truthy text then [text] else []) /\
  fst run = (if ok res then Return data else Throw (Error P (error_msg res data))) /\
  (text = EmptyString -> data = JNull) /\
  (forall v, text <> EmptyString -> JSON_parse P text = Some v -> data = v) /\
  (text <> EmptyString -> JSON_parse P text = None ->
   data = JString text /\
   fst run = if ok res then Return (JString text) else Throw (JsError text)) /\
  fst run <> Throw SyntaxError.
Proof.
  intros Hget Hnet H401. cbv zeta.
  rewrite (request_outcome P path method body w w1 tok res Hget Hnet H401).
  rewrite request_events. cbv zeta.
  apply getToken_inv in Hget as [-> ->]. rewrite Hnet.
  apply Z.eqb_neq in H401. rewrite H401.
  split; [destruct (str_truthy (body_text res)); reflexivity|].
  split; [destruct (str_truthy (body_text res)); reflexivity|].
  split; [rewrite error_msg_priority; reflexivity|].
  unfold Spec.parsed_body.
  split; [intros ->; reflexivity|].
  split.
  { intros v Ht Hv. apply str_truthy_iff in Ht. rewrite Ht, Hv. reflexivity. }
  split.
  { intros Ht Hv. pose proof Ht as Ht'. apply str_truthy_iff in Ht'.
    rewrite Ht', Hv. cbn [default from_option id]. split; [reflexivity|].
    rewrite message_of_text by assumption. reflexivity. }
  destruct (ok res); [discriminate|].
  unfold Error. destruct (ToString _ _); discriminate.
Qed.

(** C8 as stated fails on an empty body: [JSON.parse] would reject the
    empty text, yet nothing is handed to it and the value returned is
    [null], not the raw (empty) text. *)
Lemma empty_body_is_not_parsed :
  let P := Sample.platform (Sample.always (mkResponse 200 EmptyString))
             Sample.no_constants ∅ in
  let run := request P "/jobs/3" DELETE JUndefined (Sample.world ∅) in
  JSON_parse P EmptyString = None /\
  fst run = Return JNull /\
  parses (trace (snd run)) = [] /\
  text_reads (trace (snd run)) = 1.
Proof. vm_compute. repeat split. Qed.

(** C2, as the code has it: on a response that is neither 2xx nor 401 the
    error carries the first of these that applies: the [detail] of the
    parsed body when truthy, its [message] when truthy, the parsed body
    when it is a non-empty string, the text [Request failed (status)]. In
    particular a non-empty [detail] string is the message; with a falsy or
    absent [detail], a non-empty [message] string is; a body that is not
    JSON is itself the message; an empty body gives the synthesized text. *)
Theorem request_error_message
    (P : Platform) path method body (w w1 : World) tok (res : Response) :
  getToken w = (Return tok, w1) ->
  network P (BASE_URL P +:+ path) (build_init P method tok body) = Some res ->
  status res <> 401%Z ->
  ok res = false ->
  let text := body_text res in
  let thrown := fst (request P path method body w) in
  thrown = Throw (Error P (Spec.message_by_priority res (Spec.parsed_body P text))) /\
  (forall props X,
     text <> EmptyString -> JSON_parse P text = Some (JObject props) ->
     assoc "detail" props = Some (JString X) -> X <> EmptyString ->
     thrown = Throw (JsError X)) /\
  (forall props Y,
     text <> EmptyString -> JSON_parse P text = Some (JObject props) ->
     truthy (default JUndefined (assoc "detail" props)) = false ->
     assoc "message" props = Some (JString Y) -> Y <> EmptyString ->
     thrown = Throw (JsError Y)) /\
  (text <> EmptyString -> JSON_parse P text = None ->
   thrown = Throw (JsError text)) /\
  (text = EmptyString ->
   thrown = Throw (JsError ("Request failed (" +:+ String_of_int (status res) +:+ ")"))).
Proof.
  intros Hget Hnet H401 Hok. cbv zeta.
  rewrite (request_outcome P path method body w w1 tok res Hget Hnet H401), Hok.
  split; [reflexivity|].
  unfold Spec.parsed_body. repeat apply conj.
  - intros props X Ht Hp Hd HX. apply str_truthy_iff in Ht, HX.
    rewrite Ht, Hp. cbn [default from_option id]. unfold Spec.message_by_priority, Error.
    cbn [truthy get_prop andb]. rewrite Hd. cbn [default from_option id truthy andb]. rewrite HX.
    reflexivity.
  - intros props Y Ht Hp Hd Hm HY. apply str_truthy_iff in Ht, HY.
    rewrite Ht, Hp. cbn [default from_option id]. unfold Spec.message_by_priority, Error.
    cbn [truthy get_prop andb]. rewrite Hd, Hm. cbn [default from_option id truthy andb]. rewrite HY.
    reflexivity.
  - intros Ht Hp. pose proof Ht as Ht'. apply str_truthy_iff in Ht'.
    rewrite Ht', Hp. cbn [default from_option id]. rewrite message_of_text by assumption.
    reflexivity.
  - intros ->. reflexivity.
Qed.

(** C2 as stated fails when [detail] is present but falsy: with a body
    whose [detail] is the empty string and whose [message] is [Y], the
    error message is [Y], not the [detail]. *)
Lemma falsy_detail_is_skipped :
  let P := Sample.platform (Sample.always (mkResponse 500 Sample.falsy_detail_body))
             Sample.no_constants ∅ in
  JSON_parse P Sample.falsy_detail_body =
    Some (JObject [("detail", JString EmptyString); ("message", JString "Y")]) /\
  fst (request P "/jobs" GET JUndefined (Sample.world ∅)) = Throw (JsError "Y").
Proof. vm_compute. repeat split. Qed.

(** C1 on the reference platform: a stored token, a 401 with some body. *)
Lemma request_401_expires_session_witness :
  let P := Sample.platform (Sample.always (mkResponse 401 Sample.detail_body))
             Sample.no_constants ∅ in
  let w := Sample.world {[ TOKEN_KEY := "abc" ]} in
  fst (request P "/jobs" GET JUndefined w) = Throw (JsError SESSION_EXPIRED) /\
  fst (getToken (snd (request P "/jobs" GET JUndefined w))) = Return None.
Proof.
  cbv zeta.
  pose proof (request_401_expires_session
                (Sample.platform (Sample.always (mkResponse 401 Sample.detail_body))
                   Sample.no_constants ∅)
                "/jobs" GET JUndefined (Sample.world {[ TOKEN_KEY := "abc" ]})
                _ _ _ eq_refl eq_refl eq_refl) as H.
  cbv zeta in H. destruct H as (H1 & _ & _ & _ & _ & H6).
  split; [exact H1|]. apply H6. reflexivity.
Defined.

(** C8 on the reference platform: a 200 whose body is not JSON. *)
Lemma request_parses_leniently_witness :
  let P := Sample.platform (Sample.always (mkResponse 200 "<html>"))
             Sample.no_constants ∅ in
  fst (request P "/jobs" GET JUndefined (Sample.world ∅)) = Return (JString "<html>").
Proof.
  cbv zeta.
  pose proof (request_parses_leniently
                (Sample.platform (Sample.always (mkResponse 200 "<html>"))
                   Sample.no_constants ∅)
                "/jobs" GET JUndefined (Sample.world ∅)
                _ _ _ eq_refl eq_refl ltac:(discriminate)) as H.
  cbv zeta in H. destruct H as (_ & _ & _ & _ & _ & H6 & _).
  apply H6; [discriminate|reflexivity].
Defined.

(** C2 on the reference platform: a 404 whose body has a [detail]. *)
Lemma request_error_message_witness :
  let P := Sample.platform (Sample.always (mkResponse 404 Sample.detail_body))
             Sample.no_constants ∅ in
  fst (request P "/invoices/9" GET JUndefined (Sample.world ∅)) =
  Throw (JsError "Invoice not found").
Proof.
  cbv zeta.
  pose proof (request_error_message
                (Sample.platform (Sample.always (mkResponse 404 Sample.detail_body))
                   Sample.no_constants ∅)
                "/invoices/9" GET JUndefined (Sample.world ∅)
                _ _ _ eq_refl eq_refl ltac:(discriminate) eq_refl) as H.
  cbv zeta in H. destruct H as (_ & H2 & _).
  apply (H2 [("detail", JString "Invoice not found")]);
    [discriminate|vm_compute; reflexivity|reflexivity|discriminate].
Defined.

End ApiFacts.

(** ** The base URL *)

Module ConfigFacts.
Import Config.

Lemma str_or_truthy (a : option string) (b u : string) :
  a = Some u -> u <> EmptyString -> str_or a b = u.
Proof. intros -> Hu. destruct u; [congruence|reflexivity]. Qed.

Lemma str_or_falsy (a : option string) (b : string) :
  a = None \/ a = Some EmptyString -> str_or a b = b.
Proof. intros [-> | ->]; reflexivity. Qed.

(** The [extra] that [readExtra] finds: the first one present among those of
    [expoConfig], [manifest] and [manifest2]. *)
Lemma readExtra_first (c : ExpoConstants) :
  readExtra c =
  match expoConfig c ≫= extra, manifest c ≫= extra, manifest2 c ≫= extra with
  | Some e, _, _ => e
  | None, Some e, _ => e
  | None, None, Some e => e
  | None, None, None => mkExtra None
  end.
Proof.
  unfold readExtra, coalesce.
  destruct (expoConfig c ≫= extra), (manifest c ≫= extra), (manifest2 c ≫= extra);
    reflexivity.
Qed.

(** C9, as the code has it: the base URL is the [apiBaseUrl] of the
    build-time configuration when that is a non-empty string; otherwise the
    environment variable [EXPO_PUBLIC_API_BASE_URL] when that is a non-empty
    string; otherwise the hard-coded fallback. With neither configured it
    is exactly the fallback. [request] uses this one value. *)
Theorem API_BASE_URL_resolution (P : Platform) :
  let configured := apiBaseUrl (readExtra (Constants P)) in
  let env := process_env P !! "EXPO_PUBLIC_API_BASE_URL" in
  (forall u, configured = Some u -> u <> EmptyString -> API_BASE_URL P = u) /\
  (configured = None \/ configured = Some EmptyString ->
   forall u, env = Some u -> u <> EmptyString -> API_BASE_URL P = u) /\
  (configured = None \/ configured = Some EmptyString ->
   env = None \/ env = Some EmptyString ->
   API_BASE_URL P = FALLBACK_URL) /\
  FALLBACK_URL = "https://jobflow-backend-bhvw.onrender.com" /\
  getApiBaseUrl P = API_BASE_URL P /\
  Api.BASE_URL P = API_BASE_URL P.
Proof.
  cbv zeta. unfold API_BASE_URL. repeat apply conj; try reflexivity.
  - intros u Hc Hu. apply str_or_truthy; assumption.
  - intros Hc u He Hu. rewrite (str_or_falsy _ _ Hc). apply str_or_truthy; assumption.
  - intros Hc He. rewrite (str_or_falsy _ _ Hc). apply str_or_falsy; assumption.
Qed.

(** C9 as stated fails: with no [apiBaseUrl] in the build-time configuration
    the base URL still follows the process environment. *)
Lemma environment_overrides_fallback :
  let P := Sample.platform (fun _ _ => None) Sample.no_constants
             {[ "EXPO_PUBLIC_API_BASE_URL" := "http://localhost:8000" ]} in
  apiBaseUrl (readExtra (Constants P)) = None /\
  API_BASE_URL P = "http://localhost:8000" /\
  API_BASE_URL P <> FALLBACK_URL.
Proof. vm_compute. repeat split. discriminate. Qed.

End ConfigFacts.

(** ** The job filter *)

Module WithJobIdFacts.
Import Api.

Lemma encodeURIComponent_digits (d : Decimal.uint) :
  encodeURIComponent (NilEmpty.string_of_uint d) = NilEmpty.string_of_uint d.
Proof.
  induction d; cbn [NilEmpty.string_of_uint encodeURIComponent];
    [reflexivity|..];
    match goal with
    | |- context [unreserved ?c] => change (unreserved c) with true
    end;
    rewrite IHd; reflexivity.
Qed.

(** The decimal form of an integer has no character to escape. *)
Lemma encodeURIComponent_int (n : Z) :
  encodeURIComponent (String_of_int n) = String_of_int n.
Proof.
  unfold String_of_int, NilZero.string_of_int, NilZero.string_of_uint.
  destruct (Z.to_int n) as [d|d]; destruct d; cbn;
    rewrite ?encodeURIComponent_digits; reflexivity.
Qed.

Lemma prefix_char (c : ascii) (s : string) :
  String.prefix (String c EmptyString) s = true <->
  exists rest, s = String c rest.
Proof.
  destruct s as [|a rest]; cbn.
  - split; [discriminate|]. intros [? [=]].
  - destruct (ascii_dec c a) as [->|Hne].
    + split; [eauto|]. intros _. destruct rest; reflexivity.
    + split; [discriminate|]. intros [? [= -> _]]. congruence.
Qed.

(** [includes] of a one-character needle is membership of that character. *)
Lemma includes_char (c : ascii) (s : string) :
  includes (String c EmptyString) s = true <-> In c (list_ascii_of_string s).
Proof.
  induction s as [|a rest IH].
  - cbn. split; [discriminate|tauto].
  - cbn [includes list_ascii_of_string In]. rewrite orb_true_iff, IH, prefix_char.
    split.
    + intros [[r [= -> _]]|H]; [left; reflexivity|right; exact H].
    + intros [->|H]; [left; eauto|right; exact H].
Qed.

(** C5: [withJobId] returns the path as it is for [null] and for an absent
    argument. For an integer identifier it appends [?job_id=] and the
    decimal digits when the path holds no question mark, and [&job_id=] and
    the digits when it holds one. *)
Theorem withJobId_spec (path : string) (n : Z) :
  (Z.abs n < 2 ^ 53)%Z ->
  withJobId path JobIdNull = path /\
  withJobId path JobIdUndefined = path /\
  (~ In "?"%char (list_ascii_of_string path) ->
   withJobId path (JobId n) = path +:+ "?job_id=" +:+ String_of_int n) /\
  (In "?"%char (list_ascii_of_string path) ->
   withJobId path (JobId n) = path +:+ "&job_id=" +:+ String_of_int n) /\
  withJobId "/invoices" (JobId 7) = "/invoices?job_id=7" /\
  withJobId "/invoices?x=1" (JobId 7) = "/invoices?x=1&job_id=7".
Proof.
  intros _. repeat apply conj; try reflexivity.
  - intros Hno. unfold withJobId. rewrite encodeURIComponent_int.
    destruct (includes "?" path) eqn:Hi; [|reflexivity].
    apply includes_char in Hi. contradiction.
  - intros Hin. unfold withJobId. rewrite encodeURIComponent_int.
    apply includes_char in Hin. rewrite Hin. reflexivity.
Qed.

(** C5 at the job identifier 42, without and with a query string. *)
Lemma withJobId_spec_witness :
  withJobId "/expenses" (JobId 42) = "/expenses?job_id=42" /\
  withJobId "/mileage?sort=asc" (JobId 42) = "/mileage?sort=asc&job_id=42".
Proof.
  split.
  - pose proof (withJobId_spec "/expenses" 42 ltac:(reflexivity)) as H.
    destruct H as (_ & _ & H & _). apply H. cbn. intuition discriminate.
  - pose proof (withJobId_spec "/mileage?sort=asc" 42 ltac:(reflexivity)) as H.
    destruct H as (_ & _ & _ & H & _). apply H. cbn. tauto.
Defined.

End WithJobIdFacts.

(** ** CSV export *)

Module ReportsFacts.
Import Reports.

(** A string with none of the four characters that force quoting. *)
Definition plain (s : string) : Prop :=
  forall c, In c (list_ascii_of_string s) ->
    c <> dquote /\ c <> ","%char /\ c <> LF /\ c <> CR.

(** [s] in front of the field being read. *)
Definition prepend (s : string) (fields : list string) : list string :=
  match fields with
  | [] => [s]
  | f :: rest => (s +:+ f) :: rest
  end.

Lemma append_nil (t : string) : EmptyString +:+ t = t.
Proof. reflexivity. Qed.

Lemma append_cons (c : ascii) (s t : string) :
  String c s +:+ t = String c (s +:+ t).
Proof. reflexivity. Qed.

Lemma append_empty_r (s : string) : s +:+ EmptyString = s.
Proof. induction s; rewrite ?append_nil, ?append_cons; congruence. Qed.

Lemma append_assoc (a b c : string) : (a +:+ b) +:+ c = a +:+ (b +:+ c).
Proof. induction a; rewrite ?append_nil, ?append_cons; congruence. Qed.

Lemma special_false (c : ascii) :
  special c = false <-> c <> dquote /\ c <> ","%char /\ c <> LF /\ c <> CR.
Proof.
  unfold special. rewrite !orb_false_iff, !Ascii.eqb_neq. tauto.
Qed.

Lemma test_special_false (s : string) : test_special s = false <-> plain s.
Proof.
  unfold plain. induction s as [|a s IH]; cbn [test_special list_ascii_of_string In].
  - split; [tauto|reflexivity].
  - rewrite orb_false_iff, IH, special_false. split.
    + intros [Ha Hs] c [<-|Hc]; auto.
    + intros H. split; [apply H; left; reflexivity|]. intros c Hc. apply H. right. exact Hc.
Qed.

Lemma push_prepend (c : ascii) (s : string) (fields : list string) :
  push c (prepend s fields) = prepend (String c s) fields.
Proof. destruct fields; reflexivity. Qed.

Lemma readRecord_nonempty (s : string) :
  forall quoted, exists f rest, readRecord quoted s = f :: rest.
Proof.
  assert (Hpush : forall c l, exists f rest, push c l = f :: rest).
  { intros c [|f r]; cbn; eauto. }
  induction s as [|c s IH]; intros quoted; cbn [readRecord]; [eauto|].
  destruct quoted.
  - destruct (Ascii.eqb c dquote); [|apply Hpush].
    destruct s as [|c' s']; [eauto|].
    destruct (Ascii.eqb c' dquote); [apply Hpush|apply IH].
  - destruct (Ascii.eqb c ","); [eauto|].
    destruct (Ascii.eqb c dquote); [apply IH|].
    destruct (Ascii.eqb c LF || Ascii.eqb c CR); [eauto|apply Hpush].
Qed.

Lemma prepend_empty (quoted : bool) (s : string) :
  prepend EmptyString (readRecord quoted s) = readRecord quoted s.
Proof. destruct (readRecord_nonempty s quoted) as (f & r & ->). reflexivity. Qed.

(** An unquoted field is read up to where it ends. *)
Lemma read_plain (s t : string) :
  test_special s = false ->
  readRecord false (s +:+ t) = prepend s (readRecord false t).
Proof.
  induction s as [|c s IH]; intros Hs.
  - rewrite append_nil. symmetry. apply prepend_empty.
  - cbn [test_special] in Hs. apply orb_false_iff in Hs as [Hc Hs].
    unfold special in Hc. rewrite !orb_false_iff in Hc.
    destruct Hc as [[[Hq Hcomma] Hlf] Hcr].
    rewrite append_cons. cbn [readRecord]. rewrite Hcomma, Hq, Hlf, Hcr. cbn [orb].
    rewrite (IH Hs). apply push_prepend.
Qed.

(** A quoted field is read up to its closing quote, two quotes as one. *)
Lemma read_quoted (s t : string) :
  t = EmptyString \/ (exists r, t = String "," r) ->
  readRecord true (double_quotes s +:+ String dquote t) =
  prepend s (readRecord false t).
Proof.
  intros Ht. induction s as [|c s IH].
  - cbn [double_quotes]. rewrite append_nil. cbn [readRecord]. rewrite Ascii.eqb_refl.
    destruct Ht as [->|[r ->]]; [reflexivity|].
    change (Ascii.eqb "," dquote) with false. cbv iota.
    symmetry. apply prepend_empty.
  - cbn [double_quotes]. destruct (Ascii.eqb c dquote) eqn:Hc.
    + apply Ascii.eqb_eq in Hc. subst c.
      rewrite !append_cons. cbn [readRecord]. rewrite !Ascii.eqb_refl. rewrite IH.
      apply push_prepend.
    + rewrite append_cons. cbn [readRecord]. rewrite Hc, IH. apply push_prepend.
Qed.

(** What [csvEscape] makes of the string of a cell. *)
Definition escaped (s : string) : string :=
  if test_special s
  then String dquote (double_quotes s +:+ String dquote EmptyString)
  else s.

Lemma read_field (s t : string) :
  t = EmptyString \/ (exists r, t = String "," r) ->
  readRecord false (escaped s +:+ t) = prepend s (readRecord false t).
Proof.
  intros Ht. unfold escaped. destruct (test_special s) eqn:Hs.
  - rewrite append_cons, append_assoc, append_cons, append_nil. cbn [readRecord].
    change (Ascii.eqb dquote ",") with false. rewrite Ascii.eqb_refl. cbv iota.
    apply read_quoted. exact Ht.
  - apply read_plain. exact Hs.
Qed.

Lemma read_fields (texts : list string) :
  texts <> [] ->
  readRow (join "," (map escaped texts)) = texts.
Proof.
  unfold readRow.
  induction texts as [|s texts IH]; [congruence|]. intros _.
  destruct texts as [|s' texts].
  - cbn [map join]. rewrite <- (append_empty_r (escaped s)).
    rewrite read_field by (left; reflexivity).
    cbn. rewrite append_empty_r. reflexivity.
  - change (join "," (map escaped (s :: s' :: texts)))
      with (escaped s +:+ String "," (join "," (map escaped (s' :: texts)))).
    rewrite read_field by (right; eauto).
    cbn [readRecord]. rewrite Ascii.eqb_refl.
    rewrite IH by discriminate.
    cbn [prepend]. rewrite append_empty_r. reflexivity.
Qed.

Section WithPlatform.

Variable P : Platform.

(** The string a cell is exported as, before escaping: [String(v ?? "")]
    with the empty string as the default. *)
Definition cell_text (v : JSValue) : option string :=
  ToString (Number_toString P) (nullish_or v (JString EmptyString)).

Lemma csvEscape_escaped (v : JSValue) :
  csvEscape P v = escaped <$> cell_text v.
Proof. unfold csvEscape. fold (cell_text v). destruct (cell_text v); reflexivity. Qed.

Lemma csvRow_escaped (cells : list JSValue) :
  csvRow P cells =
  (fun texts => join "," (map escaped texts)) <$> mapM cell_text cells.
Proof.
  unfold csvRow.
  assert (H : mapM (csvEscape P) cells = map escaped <$> mapM cell_text cells).
  { induction cells as [|v cells IH]; [reflexivity|].
    cbn [mapM]. rewrite IH, csvEscape_escaped.
    destruct (cell_text v); [|reflexivity].
    destruct (mapM cell_text cells); reflexivity. }
  rewrite H. destruct (mapM cell_text cells); reflexivity.
Qed.

(** C10: [csvEscape] works on its argument converted to a string, [null]
    and [undefined] converting to the empty one. A string with no double
    quote, comma, line feed or carriage return is returned as it is; any
    other is wrapped in double quotes with each of its double quotes
    doubled. Reading back a row of escaped cells joined by commas yields
    the strings of the cells. *)
Theorem csvEscape_spec
    (v : JSValue) (s : string) (cells : list JSValue) (texts : list string) :
  cell_text v = Some s ->
  mapM cell_text cells = Some texts ->
  (plain s -> csvEscape P v = Some s) /\
  (~ plain s ->
   csvEscape P v =
   Some (String dquote (double_quotes s +:+ String dquote EmptyString))) /\
  (forall str, cell_text (JString str) = Some str) /\
  csvEscape P JNull = Some EmptyString /\
  csvEscape P JUndefined = Some EmptyString /\
  (cells <> [] ->
   exists row, csvRow P cells = Some row /\ readRow row = texts).
Proof.
  intros Hv Hcells. repeat apply conj; try reflexivity.
  - intros Hp. apply test_special_false in Hp.
    rewrite csvEscape_escaped, Hv. cbn [fmap option_fmap option_map].
    unfold escaped. rewrite Hp. reflexivity.
  - intros Hp. rewrite csvEscape_escaped, Hv. cbn [fmap option_fmap option_map].
    unfold escaped.
    destruct (test_special s) eqn:Hs; [reflexivity|].
    apply test_special_false in Hs. contradiction.
  - intros Hne. rewrite csvRow_escaped, Hcells. eexists. split; [reflexivity|].
    apply read_fields. intros ->. destruct cells as [|v0 cells]; [congruence|].
    cbn [mapM] in Hcells. destruct (cell_text v0); [|discriminate].
    destruct (mapM cell_text cells); discriminate.
Qed.

End WithPlatform.

(** C10 on the reference platform: a quote character inside a cell, a
    comma, an absent value and a number in one row. *)
Lemma csvEscape_spec_witness :
  let P := Sample.platform (fun _ _ => None) Sample.no_constants ∅ in
  let say_hi := "say " +:+ String dquote ("hi" +:+ String dquote EmptyString) in
  csvEscape P (JString "a,b") = Some (String dquote ("a,b" +:+ String dquote EmptyString)) /\
  readRow (default EmptyString
             (csvRow P [JString say_hi; JString "a,b"; JNull; JNumber 12])) =
  [say_hi; "a,b"; EmptyString; "12"].
Proof.
  cbv zeta.
  pose proof (csvEscape_spec (Sample.platform (fun _ _ => None) Sample.no_constants ∅)
                (JString "a,b") "a,b"
                [JString ("say " +:+ String dquote ("hi" +:+ String dquote EmptyString));
                 JString "a,b"; JNull; JNumber 12]
                _ eq_refl eq_refl) as H.
  destruct H as (_ & H2 & _ & _ & _ & H6). split.
  - apply H2. intros Hp. destruct (Hp ","%char) as (_ & Hc & _); [|congruence].
    cbn. tauto.
  - destruct H6 as (row & Hrow & Hread); [discriminate|].
    rewrite Hrow. exact Hread.
Defined.

End ReportsFacts.

(** * Further properties *)

(** ** The token store: round trips and frame *)

Module TokenStoreMore.
Import SecureStore TokenStore TokenStoreFacts.

(** A computation after another one. *)
Lemma then_run {A B} (m : Async A) (k : Async B) (w : World) :
  (m;; k) w =
  match m w with
  | (Return _, w') => k w'
  | (Throw e, w') => (Throw e, w')
  end.
Proof. reflexivity. Qed.


Lemma working_after_call (e : Event) (items : gmap string string) (w : World) :
  faults w = [] -> faults (after_call e items w) = [].
Proof. intros H. unfold after_call. cbn. rewrite H. reflexivity. Qed.

Lemma working_not_faulted (w : World) : faults w = [] -> faulted w = false.
Proof. unfold faulted. intros ->. reflexivity. Qed.

(** X3: with a working storage, a token that was stored is the token read
    back, the last one stored wins, and after [clearToken] none is read. *)
Theorem token_round_trip (t t' : string) (w : World) :
  faults w = [] ->
  t <> EmptyString ->
  fst ((setToken t;; getToken) w) = Return (Some t) /\
  fst ((setToken t';; setToken t;; getToken) w) = Return (Some t) /\
  fst ((setToken t;; clearToken;; getToken) w) = Return None.
Proof.
  intros Hw Ht. destruct w as [items fs tr]. cbn in Hw. subst fs.
  destruct t as [|c t]; [congruence|].
  repeat apply conj.
  - rewrite then_run, setToken_run. cbn [str_truthy]. rewrite getToken_run.
    cbn [fst faulted after_call faults tail secure]. rewrite lookup_insert_eq.
    reflexivity.
  - rewrite then_run, setToken_run.
    destruct (str_truthy t');
      rewrite then_run, setToken_run; cbn [str_truthy]; rewrite getToken_run;
      cbn [fst faulted after_call faults tail secure]; rewrite lookup_insert_eq;
      reflexivity.
  - rewrite then_run, setToken_run. cbn [str_truthy].
    rewrite then_run, clearToken_run, getToken_run.
    cbn [fst faulted after_call faults tail secure]. rewrite lookup_delete_eq.
    reflexivity.
Qed.

Lemma token_round_trip_witness :
  fst ((setToken "old";; setToken "abc";; getToken) (Sample.world ∅)) =
  Return (Some "abc").
Proof.
  exact (proj1 (proj2 (token_round_trip "abc" "old" (Sample.world ∅)
                         eq_refl ltac:(discriminate)))).
Defined.

Lemma getUserId_run (P : Platform) (w : World) :
  getUserId P w =
  (Return (if faulted w then None
           else match secure w !! USER_ID_KEY with
                | Some s => if str_truthy s then Some (Number_of_string P s) else None
                | None => None
                end),
   after_call (EvGetItem USER_ID_KEY) (secure w) w).
Proof. unfold getUserId, getItemAsync. by_schedule w. Qed.

Lemma setAuth_run (token : string) (userId : Z) (w : World) :
  let w1 := snd (setToken token w) in
  setAuth token userId w =
  (if faulted w1 then Throw StorageError else Return tt,
   after_call (EvSetItem USER_ID_KEY (String_of_int userId))
     (if faulted w1 then secure w1
      else <[USER_ID_KEY := String_of_int userId]> (secure w1)) w1).
Proof.
  cbv zeta. unfold setAuth. rewrite then_run, setToken_run. cbn [fst snd].
  apply setItemAsync_run.
Qed.



(** X5: the reads never change the storage; [setToken] and [clearToken]
    touch no key but the token's, [setAuth] and [clearAuth] no key but the
    token's and the user id's, whatever the storage does. *)
Theorem token_store_frame
    (P : Platform) (token : string) (userId : Z) (k : string) (w : World) :
  secure (snd (getToken w)) = secure w /\
  secure (snd (getUserId P w)) = secure w /\
  (k <> TOKEN_KEY ->
   secure (snd (setToken token w)) !! k = secure w !! k /\
   secure (snd (clearToken w)) !! k = secure w !! k) /\
  (k <> TOKEN_KEY -> k <> USER_ID_KEY ->
   secure (snd (setAuth token userId w)) !! k = secure w !! k /\
   secure (snd (clearAuth w)) !! k = secure w !! k).
Proof.
  assert (Hset : forall w0, k <> TOKEN_KEY ->
            secure (snd (setToken token w0)) !! k = secure w0 !! k).
  { intros w0 Hk. rewrite setToken_run. cbn [snd].
    destruct (str_truthy token); [|reflexivity]. cbn [secure after_call].
    destruct (faulted w0); [reflexivity|]. apply lookup_insert_ne. congruence. }
  assert (Hclear : forall w0, k <> TOKEN_KEY ->
            secure (snd (clearToken w0)) !! k = secure w0 !! k).
  { intros w0 Hk. rewrite clearToken_run. cbn [snd secure after_call].
    destruct (faulted w0); [reflexivity|]. apply lookup_delete_ne. congruence. }
  split; [rewrite getToken_run; reflexivity|].
  split; [rewrite getUserId_run; reflexivity|].
  split.
  - intros Hk. split; [apply Hset|apply Hclear]; assumption.
  - intros Hk Hu. split.
    + rewrite setAuth_run. cbv zeta. cbn [snd secure after_call].
      destruct (faulted _); [|rewrite lookup_insert_ne by congruence];
        apply Hset; assumption.
    + rewrite clearAuth_run. cbv zeta. cbn [snd secure after_call].
      destruct (faulted _); [|rewrite lookup_delete_ne by congruence];
        apply Hclear; assumption.
Qed.

(** X6: clearing is idempotent on a working storage: a second [clearToken]
    or [clearAuth] leaves the contents as the first did, and [clearToken]
    without a stored token changes nothing. *)
Theorem clearing_is_idempotent (w : World) :
  faults w = [] ->
  secure (snd ((clearToken;; clearToken) w)) = secure (snd (clearToken w)) /\
  secure (snd ((clearAuth;; clearAuth) w)) = secure (snd (clearAuth w)) /\
  (secure w !! TOKEN_KEY = None -> secure (snd (clearToken w)) = secure w).
Proof.
  intros Hw. destruct w as [items fs tr]. cbn in Hw. subst fs.
  repeat apply conj.
  - rewrite then_run, !clearToken_run.
    cbn [fst snd faulted faults after_call tail secure].
    apply delete_delete_eq.
  - rewrite then_run, !clearAuth_run. cbv zeta. rewrite !clearToken_run.
    cbn [fst snd faulted faults after_call tail secure].
    apply map_eq. intros i. rewrite !lookup_delete.
    repeat case_decide; reflexivity.
  - intros Hnone. rewrite clearToken_run.
    cbn [snd faulted faults after_call secure]. apply delete_id. exact Hnone.
Qed.

Lemma clearing_is_idempotent_witness :
  secure (snd ((clearAuth;; clearAuth)
                 (Sample.world {[ TOKEN_KEY := "abc"; USER_ID_KEY := "7" ]}))) =
  secure (snd (clearAuth (Sample.world {[ TOKEN_KEY := "abc"; USER_ID_KEY := "7" ]}))).
Proof.
  exact (proj1 (proj2 (clearing_is_idempotent
                         (Sample.world {[ TOKEN_KEY := "abc"; USER_ID_KEY := "7" ]})
                         eq_refl))).
Defined.

End TokenStoreMore.

(** ** The base URL: which configuration is read *)

Module ConfigMore.
Import Config.

(** X7: [readExtra] takes the first [extra] present among those of
    [expoConfig], [manifest] and [manifest2] and looks no further: an
    [extra] of [expoConfig] without an [apiBaseUrl] hides whatever the
    manifests configure, and the base URL is then the environment variable
    or the fallback. *)
Theorem first_extra_shadows (P : Platform) (e : Extra) :
  let c := Constants P in
  (expoConfig c ≫= extra = Some e -> readExtra c = e) /\
  (expoConfig c ≫= extra = None -> manifest c ≫= extra = Some e -> readExtra c = e) /\
  (expoConfig c ≫= extra = None -> manifest c ≫= extra = None ->
   manifest2 c ≫= extra = Some e -> readExtra c = e) /\
  (expoConfig c ≫= extra = None -> manifest c ≫= extra = None ->
   manifest2 c ≫= extra = None -> readExtra c = mkExtra None) /\
  (expoConfig c ≫= extra = Some e ->
   apiBaseUrl e = None \/ apiBaseUrl e = Some EmptyString ->
   API_BASE_URL P =
   str_or (process_env P !! "EXPO_PUBLIC_API_BASE_URL") FALLBACK_URL).
Proof.
  cbv zeta. unfold API_BASE_URL, readExtra, coalesce.
  repeat apply conj.
  - intros ->. reflexivity.
  - intros -> ->. reflexivity.
  - intros -> -> ->. reflexivity.
  - intros -> -> ->. reflexivity.
  - intros -> [Ha | Ha]; cbn [default from_option id]; rewrite Ha; reflexivity.
Qed.

End ConfigMore.

(** ** The request dispatcher: failures, frame and outcome *)

Module ApiMore.
Import SecureStore TokenStore TokenStoreFacts Api ApiFacts.

Lemma ok_not_401 (res : Response) : ok res = true -> (status res =? 401)%Z = false.
Proof. unfold ok. intros H. apply andb_true_iff in H as [_ H]. lia. Qed.

(** The trace after [request] extends the one before. *)
Lemma request_trace (P : Platform) path method body (w : World) :
  trace (snd (request P path method body w)) =
  (trace w ++ events_since w (snd (request P path method body w)))%list.
Proof.
  rewrite request_events. cbv zeta. rewrite request_run. cbv zeta.
  destruct (network P _ _) as [res|]; cbn [snd].
  - destruct (status res =? 401)%Z; cbn [snd].
    + rewrite clearToken_run. cbn. rewrite <- !app_assoc. reflexivity.
    + destruct (str_truthy (body_text res)); cbn; rewrite <- !app_assoc; reflexivity.
  - cbn. rewrite <- !app_assoc. reflexivity.
Qed.

(** The one call of [fetch] that [request] makes. *)
Lemma request_fetches (P : Platform) path method body (w : World) :
  fetches (events_since w (snd (request P path method body w))) =
  [(BASE_URL P +:+ path,
    build_init P method (if faulted w then None else secure w !! TOKEN_KEY) body)].
Proof.
  rewrite request_events. cbv zeta.
  destruct (network P _ _) as [res|]; [|reflexivity].
  destruct (status res =? 401)%Z; [reflexivity|].
  destruct (str_truthy (body_text res)); reflexivity.
Qed.

Lemma fetches_app (evs evs' : list Event) :
  fetches (evs ++ evs') = (fetches evs ++ fetches evs')%list.
Proof. apply omap_app. Qed.

(** X8: when [fetch] rejects, [request] rejects with the same failure after
    the token read and the one request: nothing is read, parsed or cleared,
    and the storage is as it was. *)
Theorem request_transport_failure
    (P : Platform) path method body (w w1 : World) tok :
  getToken w = (Return tok, w1) ->
  network P (BASE_URL P +:+ path) (build_init P method tok body) = None ->
  let w' := snd (request P path method body w) in
  fst (request P path method body w) = Throw TransportFailure /\
  secure w' = secure w /\
  events_since w w' =
    [EvGetItem TOKEN_KEY; EvFetch (BASE_URL P +:+ path) (build_init P method tok body)].
Proof.
  intros Hget Hnet. apply getToken_inv in Hget as [-> ->]. cbv zeta.
  rewrite request_events. cbv zeta. rewrite request_run. cbv zeta.
  rewrite Hnet. repeat split.
Qed.

Lemma request_transport_failure_witness :
  let P := Sample.platform (fun _ _ => None) Sample.no_constants ∅ in
  let w := Sample.world {[ TOKEN_KEY := "abc" ]} in
  fst (request P "/jobs" GET JUndefined w) = Throw TransportFailure /\
  secure (snd (request P "/jobs" GET JUndefined w)) = secure w.
Proof.
  cbv zeta.
  pose proof (request_transport_failure
                (Sample.platform (fun _ _ => None) Sample.no_constants ∅)
                "/jobs" GET JUndefined (Sample.world {[ TOKEN_KEY := "abc" ]})
                _ _ eq_refl eq_refl) as H.
  cbv zeta in H. destruct H as (H1 & H2 & _). split; assumption.
Defined.

(** X9: [request] never writes to the storage. Whatever the response and
    the storage do, it leaves the contents as they were or with the token
    deleted, no other key is touched, and the contents change only when it
    rejects with the session-expired error. *)
Theorem request_storage_frame
    (P : Platform) path method body (w : World) :
  let w' := snd (request P path method body w) in
  (secure w' = secure w \/ secure w' = delete TOKEN_KEY (secure w)) /\
  (forall k, k <> TOKEN_KEY -> secure w' !! k = secure w !! k) /\
  (forall k v, ~ In (EvSetItem k v) (events_since w w')) /\
  (secure w' <> secure w ->
   fst (request P path method body w) = Throw (JsError SESSION_EXPIRED)).
Proof.
  cbv zeta. rewrite request_events. cbv zeta. rewrite request_run. cbv zeta.
  destruct (network P _ _) as [res|].
  - destruct (status res =? 401)%Z.
    + rewrite clearToken_run. cbn [fst snd secure after_call record].
      destruct (faulted _).
      * split; [left; reflexivity|]. split; [reflexivity|].
        split; [|congruence].
        intros k v [H|[H|[H|[]]]]; discriminate.
      * split; [right; reflexivity|].
        split; [intros k Hk; apply lookup_delete_ne; congruence|].
        split; [|reflexivity].
        intros k v [H|[H|[H|[]]]]; discriminate.
    + cbn [fst snd]. split.
      { left. destruct (str_truthy (body_text res)); reflexivity. }
      split.
      { intros k _. destruct (str_truthy (body_text res)); reflexivity. }
      split.
      { intros k v. destruct (str_truthy (body_text res));
          cbn; intuition discriminate. }
      intros Hne. exfalso. apply Hne.
      destruct (str_truthy (body_text res)); reflexivity.
  - cbn [fst snd secure record after_call]. split; [left; reflexivity|].
    split; [reflexivity|]. split; [|congruence].
    intros k v [H|[H|[]]]; discriminate.
Qed.

(** X10: once [fetch] has resolved, [request] resolves exactly when the
    status is in 200..299: then with the parsed body (the JSON value of a
    non-empty JSON text) and with the storage unchanged. *)
Theorem request_resolves_iff_2xx
    (P : Platform) path method body (w w1 : World) tok (res : Response) :
  getToken w = (Return tok, w1) ->
  network P (BASE_URL P +:+ path) (build_init P method tok body) = Some res ->
  let run := request P path method body w in
  returns run = ok res /\
  (ok res = true ->
   fst run = Return (Spec.parsed_body P (body_text res)) /\
   secure (snd run) = secure w) /\
  (forall v, ok res = true -> body_text res <> EmptyString ->
     JSON_parse P (body_text res) = Some v -> fst run = Return v).
Proof.
  intros Hget Hnet. apply getToken_inv in Hget as [-> ->]. cbv zeta.
  rewrite request_run. cbv zeta. rewrite Hnet.
  destruct (ok res) eqn:Hok.
  - rewrite (ok_not_401 _ Hok). cbn [fst snd returns].
    split; [reflexivity|]. split.
    + intros _. split; [reflexivity|].
      destruct (str_truthy (body_text res)); reflexivity.
    + intros v _ Ht Hv. apply str_truthy_iff in Ht.
      unfold Spec.parsed_body. rewrite Ht, Hv. reflexivity.
  - split; [|split; [discriminate|intros; discriminate]].
    destruct (status res =? 401)%Z; reflexivity.
Qed.

Lemma request_resolves_iff_2xx_witness :
  let P := Sample.platform (Sample.always (mkResponse 201 Sample.detail_body))
             Sample.no_constants ∅ in
  fst (request P "/jobs" POST JNull (Sample.world ∅)) =
  Return (JObject [("detail", JString "Invoice not found")]).
Proof.
  cbv zeta.
  pose proof (request_resolves_iff_2xx
                (Sample.platform (Sample.always (mkResponse 201 Sample.detail_body))
                   Sample.no_constants ∅)
                "/jobs" POST JNull (Sample.world ∅) _ _ _ eq_refl eq_refl) as H.
  cbv zeta in H. destruct H as (_ & _ & H3).
  apply H3; [reflexivity|discriminate|vm_compute; reflexivity].
Defined.

End ApiMore.

(** ** Query strings and the receipt upload *)

Module EndpointsFacts.
Import Api Endpoints ApiFacts WithJobIdFacts ReportsFacts.

Lemma chars_append (a b : string) :
  list_ascii_of_string (a +:+ b) =
  (list_ascii_of_string a ++ list_ascii_of_string b)%list.
Proof.
  induction a as [|c a IH]; [reflexivity|].
  rewrite append_cons. cbn [list_ascii_of_string]. rewrite IH. reflexivity.
Qed.

Lemma prefix_append (p s : string) : String.prefix p (p +:+ s) = true.
Proof.
  induction p as [|c p IH]; [destruct s; reflexivity|].
  rewrite append_cons. cbn [String.prefix].
  destruct (ascii_dec c c); [exact IH|congruence].
Qed.

Lemma withJobId_has_query (path : string) (n : Z) :
  includes "?" (withJobId path (JobId n)) = true.
Proof.
  apply includes_char. unfold withJobId. rewrite chars_append. apply in_or_app.
  destruct (includes "?" path) eqn:Hi.
  - left. apply includes_char. exact Hi.
  - right. rewrite chars_append. apply in_or_app. left. cbn. tauto.
Qed.

(** X11: [withJobId] keeps the path as a prefix and always yields a path
    with a query string, so a second filter is joined with an ampersand. *)
Theorem withJobId_composes (path : string) (a b : Z) :
  (Z.abs a < 2 ^ 53)%Z ->
  (Z.abs b < 2 ^ 53)%Z ->
  String.prefix path (withJobId path (JobId a)) = true /\
  In "?"%char (list_ascii_of_string (withJobId path (JobId a))) /\
  withJobId (withJobId path (JobId a)) (JobId b) =
    withJobId path (JobId a) +:+ "&job_id=" +:+ String_of_int b.
Proof.
  intros _ _. repeat apply conj.
  - apply prefix_append.
  - apply includes_char, withJobId_has_query.
  - unfold withJobId at 1. rewrite withJobId_has_query, encodeURIComponent_int.
    reflexivity.
Qed.

Lemma withJobId_composes_witness :
  withJobId (withJobId "/invoices" (JobId 7)) (JobId 8) =
  "/invoices?job_id=7&job_id=8".
Proof.
  exact (proj2 (proj2 (withJobId_composes "/invoices" 7 8
                         ltac:(reflexivity) ltac:(reflexivity)))).
Defined.

(** X12: [getReceipts] requests [/receipts] alone when no identifier is
    given, and otherwise a query string with [job_id] first and
    [expense_id] second, joined by an ampersand when both are there. An
    identifier that is zero counts as not given, unlike in [withJobId]. *)
Theorem receiptsPath_spec (a b : Z) (e : option Z) :
  (Z.abs a < 2 ^ 53)%Z ->
  (Z.abs b < 2 ^ 53)%Z ->
  receiptsPath None = "/receipts" /\
  receiptsPath (Some (mkReceiptParams None None)) = "/receipts" /\
  receiptsPath (Some (mkReceiptParams (Some 0%Z) e)) =
    receiptsPath (Some (mkReceiptParams None e)) /\
  receiptsPath (Some (mkReceiptParams e (Some 0%Z))) =
    receiptsPath (Some (mkReceiptParams e None)) /\
  (a <> 0%Z ->
   receiptsPath (Some (mkReceiptParams (Some a) None)) =
     "/receipts?job_id=" +:+ String_of_int a) /\
  (b <> 0%Z ->
   receiptsPath (Some (mkReceiptParams None (Some b))) =
     "/receipts?expense_id=" +:+ String_of_int b) /\
  (a <> 0%Z -> b <> 0%Z ->
   receiptsPath (Some (mkReceiptParams (Some a) (Some b))) =
     "/receipts?job_id=" +:+ String_of_int a +:+ "&expense_id=" +:+ String_of_int b).
Proof.
  intros _ _. unfold receiptsPath, push_id. cbn [mbind option_bind job_id expense_id].
  repeat apply conj; try reflexivity.
  - intros Ha. apply Z.eqb_neq in Ha. rewrite Ha, encodeURIComponent_int. reflexivity.
  - intros Hb. apply Z.eqb_neq in Hb. rewrite Hb, encodeURIComponent_int. reflexivity.
  - intros Ha Hb. apply Z.eqb_neq in Ha, Hb.
    rewrite Ha, Hb, !encodeURIComponent_int. cbn [app join].
    repeat (rewrite append_assoc || rewrite append_cons || rewrite append_nil).
    reflexivity.
Qed.

Lemma receiptsPath_spec_witness :
  receiptsPath (Some (mkReceiptParams (Some 3%Z) (Some 5%Z))) =
  "/receipts?job_id=3&expense_id=5".
Proof.
  pose proof (receiptsPath_spec 3 5 None ltac:(reflexivity) ltac:(reflexivity)) as H.
  destruct H as (_ & _ & _ & _ & _ & _ & H). apply H; discriminate.
Defined.

(** What a call of [uploadReceiptToPresignedUrl] does, step by step. *)
Lemma upload_run (P : Platform) (uploadUrl fileUri contentType : string) (w : World) :
  let get := mkInit GET ∅ None in
  let w1 := record (EvFetch fileUri get) w in
  uploadReceiptToPresignedUrl P uploadUrl fileUri contentType w =
  match network P fileUri get with
  | None => (Throw TransportFailure, w1)
  | Some res =>
      let init := mkInit PUT {[ "Content-Type" := contentType ]} (Some (body_text res)) in
      let w2 := record (EvFetch uploadUrl init) w1 in
      match network P uploadUrl init with
      | None => (Throw TransportFailure, w2)
      | Some put =>
          if ok put then (Return tt, w2)
          else (Throw (JsError
                  (Config.str_or (Some (body_text put))
                     ("Upload failed (" +:+ String_of_int (status put) +:+ ")"))),
                record EvText w2)
      end
  end.
Proof.
  cbv zeta. unfold uploadReceiptToPresignedUrl, fetch, text, mbind, Async_bind,
    emit, try_catch, mret, Async_ret, throw.
  destruct (network P fileUri _) as [res|]; [|reflexivity].
  destruct (network P uploadUrl _) as [put|]; [|reflexivity].
  destruct (ok put); reflexivity.
Qed.

(** X13: the upload works outside the session: it makes no storage call,
    leaves the stored credentials as they are whatever the two responses
    are (a 401 included), and none of its requests carries an
    [Authorization] header. *)
Theorem upload_leaves_session_alone
    (P : Platform) (uploadUrl fileUri contentType : string) (w : World) :
  let w' := snd (uploadReceiptToPresignedUrl P uploadUrl fileUri contentType w) in
  secure w' = secure w /\
  faults w' = faults w /\
  Forall (fun call => init_headers (snd call) !! "Authorization" = None)
    (fetches (events_since w w')).
Proof.
  cbv zeta. rewrite upload_run. cbv zeta.
  assert (Hct : ({[ "Content-Type" := contentType ]} : gmap string string)
                  !! "Authorization" = None)
    by (apply lookup_singleton_ne; discriminate).
  assert (Hget : (∅ : gmap string string) !! "Authorization" = None)
    by apply lookup_empty.
  destruct (network P fileUri _) as [res|];
    [destruct (network P uploadUrl _) as [put|]; [destruct (ok put)|]|];
    cbn [snd secure faults record];
    (split; [reflexivity|]); (split; [reflexivity|]);
    (erewrite events_since_app by (cbn; rewrite <- ?app_assoc; reflexivity));
    cbn [fetches omap list_omap]; cbn [snd init_headers];
    repeat (apply Forall_cons; split; [assumption|]); apply Forall_nil; exact I.
Qed.

(** X14: the upload sends the body it fetched from the file location,
    whatever the status of that response, with the PUT method under the
    given content type. It resolves exactly when the PUT is answered in
    200..299; otherwise it rejects with the body text of the answer as the
    message, or with [Upload failed (status)] when that text is empty. *)
Theorem upload_outcome
    (P : Platform) (uploadUrl fileUri contentType : string) (w : World)
    (res put : Response) :
  network P fileUri (mkInit GET ∅ None) = Some res ->
  network P uploadUrl
    (mkInit PUT {[ "Content-Type" := contentType ]} (Some (body_text res))) = Some put ->
  let run := uploadReceiptToPresignedUrl P uploadUrl fileUri contentType w in
  fetches (events_since w (snd run)) =
    [(fileUri, mkInit GET ∅ None);
     (uploadUrl, mkInit PUT {[ "Content-Type" := contentType ]} (Some (body_text res)))] /\
  returns run = ok put /\
  (ok put = false -> body_text put <> EmptyString ->
   fst run = Throw (JsError (body_text put))) /\
  (ok put = false -> body_text put = EmptyString ->
   fst run =
   Throw (JsError ("Upload failed (" +:+ String_of_int (status put) +:+ ")"))).
Proof.
  intros Hres Hput. cbv zeta. rewrite upload_run. cbv zeta. rewrite Hres, Hput.
  destruct (ok put).
  - split; [|repeat split; discriminate].
    erewrite events_since_app by (cbn; rewrite <- app_assoc; reflexivity).
    reflexivity.
  - split.
    { erewrite events_since_app by (cbn; rewrite <- !app_assoc; reflexivity).
      reflexivity. }
    split; [reflexivity|]. split.
    + intros _ Ht. cbn [fst]. destruct (body_text put); [congruence|reflexivity].
    + intros _ ->. reflexivity.
Qed.

Lemma upload_outcome_witness :
  let P := Sample.platform (Sample.always (mkResponse 403 EmptyString))
             Sample.no_constants ∅ in
  fst (uploadReceiptToPresignedUrl P "https://bucket/key" "file:///r.jpg" "image/jpeg"
         (Sample.world ∅)) =
  Throw (JsError "Upload failed (403)").
Proof.
  cbv zeta.
  pose proof (upload_outcome
                (Sample.platform (Sample.always (mkResponse 403 EmptyString))
                   Sample.no_constants ∅)
                "https://bucket/key" "file:///r.jpg" "image/jpeg" (Sample.world ∅)
                _ _ eq_refl eq_refl) as H.
  cbv zeta in H. destruct H as (_ & _ & _ & H). apply H; reflexivity.
Defined.

End EndpointsFacts.

(** ** Login, signup and account deletion *)

Module AuthFacts.
Import SecureStore TokenStore TokenStoreFacts TokenStoreMore Api ApiFacts ApiMore Auth.

(** The request of [login]. *)
Definition login_request (P : Platform) (email password : string) : Async JSValue :=
  request P "/auth/login" POST
    (JObject [("email", JString email); ("password", JString password)]).

(** What [login] and [signup] do with the response of their request. *)
Definition keep_session (P : Platform) (res : JSValue) : Async JSValue :=
  token ← member res "token";
  userId ← member res "userId";
  setAuth_value P token userId;;
  mret res.

Lemma login_unfold (P : Platform) (email password : string) (w : World) :
  login P email password w =
  match login_request P email password w with
  | (Return res, w1) => keep_session P res w1
  | (Throw e, w1) => (Throw e, w1)
  end.
Proof. reflexivity. Qed.

Lemma setToken_value_string (t : string) : setToken_value (JString t) = setToken t.
Proof. reflexivity. Qed.

(** [setToken] with an unchecked token on a working storage: only a
    non-empty string is written. *)
Lemma setToken_value_working (token : JSValue) (w1 : World) :
  faults w1 = [] ->
  fst (setToken_value token w1) = Return tt /\
  secure (snd (setToken_value token w1)) =
    match token with
    | JString t => if str_truthy t then <[TOKEN_KEY := t]> (secure w1) else secure w1
    | _ => secure w1
    end /\
  faults (snd (setToken_value token w1)) = [].
Proof.
  intros Hw. destruct w1 as [items0 fs tr]. cbn in Hw. subst fs.
  unfold setToken_value, setItemAsync_value, try_catch.
  destruct token as [| |b|n|t|l|o]; cbn [truthy negb].
  - repeat split.
  - repeat split.
  - destruct b; repeat split.
  - destruct (negb _); repeat split.
  - destruct t as [|c t]; cbn [str_truthy negb]; [repeat split|].
    rewrite setItemAsync_run. repeat split.
  - repeat split.
  - repeat split.
Qed.

(** On an object, with a working storage. *)
Lemma keep_session_object
    (P : Platform) (props : list (string * JSValue)) (s : string) (w1 : World) :
  faults w1 = [] ->
  ToString (Number_toString P) (get_prop (JObject props) "userId") = Some s ->
  let token := get_prop (JObject props) "token" in
  let items :=
    match token with
    | JString t => if str_truthy t then <[TOKEN_KEY := t]> (secure w1) else secure w1
    | _ => secure w1
    end in
  fst (keep_session P (JObject props) w1) = Return (JObject props) /\
  secure (snd (keep_session P (JObject props) w1)) = <[USER_ID_KEY := s]> items /\
  faults (snd (keep_session P (JObject props) w1)) = [].
Proof.
  intros Hw Hs. cbv zeta.
  destruct (setToken_value_working (get_prop (JObject props) "token") w1 Hw)
    as (H1 & H2 & H3).
  assert (Hrun : keep_session P (JObject props) w1 =
            (Return (JObject props),
             after_call (EvSetItem USER_ID_KEY s)
               (<[USER_ID_KEY := s]>
                  (secure (snd (setToken_value (get_prop (JObject props) "token") w1))))
               (snd (setToken_value (get_prop (JObject props) "token") w1)))).
  { unfold keep_session, member, setAuth_value, mbind, Async_bind, mret, Async_ret.
    rewrite Hs.
    destruct (setToken_value (get_prop (JObject props) "token") w1) as [r w2].
    cbn [fst snd] in *. subst r.
    rewrite setItemAsync_run, (working_not_faulted _ H3). reflexivity. }
  rewrite Hrun. cbn [fst snd secure faults after_call]. rewrite H2, H3.
  repeat split.
Qed.

(** X15: when the request of [login] resolves with an object whose [token]
    is a non-empty string and whose [userId] converts to a string, and the
    storage works, [login] resolves with that object, the token and the
    user id are stored, and the token is the one read from then on. *)
Theorem login_stores_session
    (P : Platform) (email password : string) (w w1 : World)
    (props : list (string * JSValue)) (t s : string) (userId : JSValue) :
  login_request P email password w = (Return (JObject props), w1) ->
  faults w1 = [] ->
  assoc "token" props = Some (JString t) ->
  t <> EmptyString ->
  assoc "userId" props = Some userId ->
  ToString (Number_toString P) userId = Some s ->
  let w' := snd (login P email password w) in
  fst (login P email password w) = Return (JObject props) /\
  secure w' = <[USER_ID_KEY := s]> (<[TOKEN_KEY := t]> (secure w1)) /\
  fst (getToken w') = Return (Some t).
Proof.
  intros Hreq Hw Htok Ht Hid Hs. cbv zeta. rewrite login_unfold, Hreq.
  assert (Hs' : ToString (Number_toString P) (get_prop (JObject props) "userId") = Some s).
  { cbn [get_prop]. rewrite Hid. exact Hs. }
  destruct (keep_session_object P props s w1 Hw Hs') as (H1 & H2 & H3).
  cbn [get_prop] in H2. rewrite Htok in H2. cbn [default from_option id] in H2.
  apply str_truthy_iff in Ht. rewrite Ht in H2.
  split; [exact H1|]. split; [exact H2|].
  rewrite getToken_run, (working_not_faulted _ H3). cbn [fst]. rewrite H2.
  rewrite lookup_insert_ne by discriminate. rewrite lookup_insert_eq. reflexivity.
Qed.

(** The text of a login response: a token and the user id 7. *)
Definition session_body : string :=
  "{" +:+ Sample.quote "token" +:+ ":" +:+ Sample.quote "tok123" +:+ "," +:+
  Sample.quote "userId" +:+ ":7}".

Lemma login_stores_session_witness :
  let P := Sample.platform (Sample.always (mkResponse 200 session_body))
             Sample.no_constants ∅ in
  let w' := snd (login P "ann@example.com" "secret" (Sample.world ∅)) in
  secure w' !! TOKEN_KEY = Some "tok123" /\
  secure w' !! USER_ID_KEY = Some "7".
Proof.
  cbv zeta.
  pose proof (login_stores_session
                (Sample.platform (Sample.always (mkResponse 200 session_body))
                   Sample.no_constants ∅)
                "ann@example.com" "secret" (Sample.world ∅) _ _ "tok123" "7" _
                ltac:(vm_compute; reflexivity) eq_refl eq_refl
                ltac:(discriminate) eq_refl ltac:(vm_compute; reflexivity)) as H.
  cbv zeta in H. destruct H as (_ & H2 & _). rewrite H2. split.
  - rewrite lookup_insert_ne by discriminate. apply lookup_insert_eq.
  - apply lookup_insert_eq.
Defined.

(** X16: a login that is refused stores nothing: on a status outside
    200..299 [login] rejects as its request does and stops there, and on a
    2xx with an empty body it rejects with a TypeError, the storage as the
    request left it, which is as it was. *)
Theorem login_rejections_store_nothing
    (P : Platform) (email password : string) (w w1 : World) tok (res : Response) :
  getToken w = (Return tok, w1) ->
  network P (BASE_URL P +:+ "/auth/login")
    (build_init P POST tok
       (JObject [("email", JString email); ("password", JString password)])) = Some res ->
  let run := login P email password w in
  (ok res = false ->
   run = login_request P email password w /\ returns run = false) /\
  (ok res = true -> body_text res = EmptyString ->
   run = (Throw TypeError, snd (login_request P email password w)) /\
   secure (snd run) = secure w).
Proof.
  intros Hget Hnet. apply getToken_inv in Hget as [-> ->]. cbv zeta.
  rewrite login_unfold. unfold login_request. rewrite request_run. cbv zeta.
  rewrite Hnet. split.
  - intros Hok. rewrite Hok. destruct (status res =? 401)%Z; split; reflexivity.
  - intros Hok Hbody. rewrite (ApiMore.ok_not_401 _ Hok), Hok, Hbody.
    split; reflexivity.
Qed.

Lemma login_rejections_store_nothing_witness :
  let P := Sample.platform (Sample.always (mkResponse 200 EmptyString))
             Sample.no_constants ∅ in
  fst (login P "ann@example.com" "secret" (Sample.world ∅)) = Throw TypeError.
Proof.
  cbv zeta.
  pose proof (login_rejections_store_nothing
                (Sample.platform (Sample.always (mkResponse 200 EmptyString))
                   Sample.no_constants ∅)
                "ann@example.com" "secret" (Sample.world ∅) _ _ _ eq_refl eq_refl) as H.
  cbv zeta in H. destruct H as (_ & H).
  destruct (H eq_refl eq_refl) as (Hrun & _). rewrite Hrun. reflexivity.
Defined.

(** X17: [login] does not validate the response. When its request resolves
    with an object that has neither [token] nor [userId], it still
    resolves, leaves the stored token as it was and stores the text
    [undefined] as the user id. *)
Theorem login_does_not_validate
    (P : Platform) (email password : string) (w w1 : World)
    (props : list (string * JSValue)) :
  login_request P email password w = (Return (JObject props), w1) ->
  faults w1 = [] ->
  assoc "token" props = None ->
  assoc "userId" props = None ->
  let w' := snd (login P email password w) in
  fst (login P email password w) = Return (JObject props) /\
  secure w' = <[USER_ID_KEY := "undefined"]> (secure w1).
Proof.
  intros Hreq Hw Htok Hid. cbv zeta. rewrite login_unfold, Hreq.
  assert (Hs : ToString (Number_toString P) (get_prop (JObject props) "userId")
               = Some "undefined").
  { cbn [get_prop]. rewrite Hid. reflexivity. }
  destruct (keep_session_object P props "undefined" w1 Hw Hs) as (H1 & H2 & _).
  cbn [get_prop] in H2. rewrite Htok in H2. cbn [default from_option id] in H2.
  split; assumption.
Qed.

Lemma login_does_not_validate_witness :
  let P := Sample.platform (Sample.always (mkResponse 200 Sample.detail_body))
             Sample.no_constants ∅ in
  let w' := snd (login P "ann@example.com" "secret"
                   (Sample.world {[ TOKEN_KEY := "old" ]})) in
  secure w' !! TOKEN_KEY = Some "old" /\
  secure w' !! USER_ID_KEY = Some "undefined".
Proof.
  cbv zeta.
  pose proof (login_does_not_validate
                (Sample.platform (Sample.always (mkResponse 200 Sample.detail_body))
                   Sample.no_constants ∅)
                "ann@example.com" "secret" (Sample.world {[ TOKEN_KEY := "old" ]}) _ _
                ltac:(vm_compute; reflexivity) eq_refl eq_refl eq_refl) as H.
  cbv zeta in H. destruct H as (_ & H2). rewrite H2. split.
  - rewrite lookup_insert_ne by discriminate. reflexivity.
  - apply lookup_insert_eq.
Defined.

(** The request of [signup]. *)
Definition signup_request
    (P : Platform) (email password : string) (full_name : option string)
  : Async JSValue :=
  request P "/auth/signup" POST
    (JObject [("email", JString email);
              ("password", JString password);
              ("full_name", from_option JString JNull full_name)]).

Lemma signup_unfold
    (P : Platform) (email password : string) (full_name : option string) (w : World) :
  signup P email password full_name w =
  match signup_request P email password full_name w with
  | (Return res, w1) => keep_session P res w1
  | (Throw e, w1) => (Throw e, w1)
  end.
Proof. reflexivity. Qed.

(** X18: [signup] posts the email, the password and the full name, [null]
    standing for an omitted name, and keeps the session as [login] does:
    when its request resolves with an object whose [token] is a non-empty
    string and whose [userId] converts to a string, and the storage works,
    both are stored. *)
Theorem signup_stores_session
    (P : Platform) (email password : string) (full_name : option string)
    (w w1 : World) (props : list (string * JSValue)) (t s : string) (userId : JSValue) :
  signup_request P email password full_name w = (Return (JObject props), w1) ->
  faults w1 = [] ->
  assoc "token" props = Some (JString t) ->
  t <> EmptyString ->
  assoc "userId" props = Some userId ->
  ToString (Number_toString P) userId = Some s ->
  let w' := snd (signup P email password full_name w) in
  map (fun call => init_body (snd call)) (fetches (events_since w w')) =
    [Some (JSON_stringify P
             (JObject [("email", JString email);
                       ("password", JString password);
                       ("full_name",
                        match full_name with
                        | Some name => JString name
                        | None => JNull
                        end)]))] /\
  fst (signup P email password full_name w) = Return (JObject props) /\
  secure w' = <[USER_ID_KEY := s]> (<[TOKEN_KEY := t]> (secure w1)).
Proof.
  intros Hreq Hw Htok Ht Hid Hs. cbv zeta.
  assert (Hs' : ToString (Number_toString P) (get_prop (JObject props) "userId") = Some s).
  { cbn [get_prop]. rewrite Hid. exact Hs. }
  destruct (setToken_value_working (get_prop (JObject props) "token") w1 Hw)
    as (_ & _ & H3).
  assert (Hrun : signup P email password full_name w =
            (Return (JObject props),
             after_call (EvSetItem USER_ID_KEY s)
               (<[USER_ID_KEY := s]> (<[TOKEN_KEY := t]> (secure w1)))
               (after_call (EvSetItem TOKEN_KEY t) (<[TOKEN_KEY := t]> (secure w1)) w1))).
  { rewrite signup_unfold, Hreq.
    unfold keep_session, member, setAuth_value, mbind, Async_bind, mret, Async_ret.
    rewrite Hs'. cbn [get_prop]. rewrite Htok. cbn [default from_option id].
    rewrite setToken_value_string, setToken_run.
    apply str_truthy_iff in Ht. rewrite Ht.
    rewrite (working_not_faulted _ Hw), setItemAsync_run.
    unfold faulted at 1 2. cbn [faults after_call]. rewrite Hw. reflexivity. }
  rewrite Hrun. cbn [fst snd secure after_call]. split; [|split; reflexivity].
  pose proof (request_trace P "/auth/signup" POST
                (JObject [("email", JString email);
                          ("password", JString password);
                          ("full_name", from_option JString JNull full_name)]) w) as Htr.
  pose proof (request_fetches P "/auth/signup" POST
                (JObject [("email", JString email);
                          ("password", JString password);
                          ("full_name", from_option JString JNull full_name)]) w) as Hf.
  fold (signup_request P email password full_name) in Htr, Hf.
  rewrite Hreq in Htr, Hf. cbn [snd] in Htr, Hf.
  erewrite events_since_app
    by (cbn [trace after_call]; rewrite Htr, <- !app_assoc; reflexivity).
  rewrite fetches_app, Hf. destruct full_name; reflexivity.
Qed.

Lemma signup_stores_session_witness :
  let P := Sample.platform (Sample.always (mkResponse 201 session_body))
             Sample.no_constants ∅ in
  let w' := snd (signup P "ann@example.com" "secret" None (Sample.world ∅)) in
  secure w' !! TOKEN_KEY = Some "tok123" /\
  secure w' !! USER_ID_KEY = Some "7".
Proof.
  cbv zeta.
  pose proof (signup_stores_session
                (Sample.platform (Sample.always (mkResponse 201 session_body))
                   Sample.no_constants ∅)
                "ann@example.com" "secret" None (Sample.world ∅) _ _ "tok123" "7" _
                ltac:(vm_compute; reflexivity) eq_refl eq_refl
                ltac:(discriminate) eq_refl ltac:(vm_compute; reflexivity)) as H.
  cbv zeta in H. destruct H as (_ & _ & H3). rewrite H3. split.
  - rewrite lookup_insert_ne by discriminate. apply lookup_insert_eq.
  - apply lookup_insert_eq.
Defined.

(** X19: after a login that stored the token [t], the next [request],
    whatever it asks for, carries [Authorization: Bearer t]. *)
Theorem login_then_request_is_authenticated
    (P : Platform) (email password : string) (w w1 : World)
    (props : list (string * JSValue)) (t s : string) (userId : JSValue)
    path method body :
  login_request P email password w = (Return (JObject props), w1) ->
  faults w1 = [] ->
  assoc "token" props = Some (JString t) ->
  t <> EmptyString ->
  assoc "userId" props = Some userId ->
  ToString (Number_toString P) userId = Some s ->
  let w' := snd (login P email password w) in
  exists init,
    fetches (events_since w' (snd (request P path method body w'))) =
      [(BASE_URL P +:+ path, init)] /\
    init_headers init !! "Authorization" = Some ("Bearer " +:+ t).
Proof.
  intros Hreq Hw Htok Ht Hid Hs. cbv zeta. rewrite login_unfold, Hreq.
  assert (Hs' : ToString (Number_toString P) (get_prop (JObject props) "userId") = Some s).
  { cbn [get_prop]. rewrite Hid. exact Hs. }
  destruct (keep_session_object P props s w1 Hw Hs') as (_ & H2 & H3).
  cbn [get_prop] in H2. rewrite Htok in H2. cbn [default from_option id] in H2.
  apply str_truthy_iff in Ht. rewrite Ht in H2.
  eexists. split; [apply request_fetches|].
  rewrite (working_not_faulted _ H3), H2.
  rewrite lookup_insert_ne by discriminate. rewrite lookup_insert_eq.
  unfold build_init, build_headers. cbn [init_headers]. rewrite Ht.
  apply lookup_insert_eq.
Qed.

Lemma login_then_request_is_authenticated_witness :
  let P := Sample.platform (Sample.always (mkResponse 200 session_body))
             Sample.no_constants ∅ in
  let w' := snd (login P "ann@example.com" "secret" (Sample.world ∅)) in
  exists init,
    fetches (events_since w' (snd (Endpoints.getJobs P w'))) =
      [(BASE_URL P +:+ "/jobs", init)] /\
    init_headers init !! "Authorization" = Some "Bearer tok123".
Proof.
  cbv zeta.
  exact (login_then_request_is_authenticated
           (Sample.platform (Sample.always (mkResponse 200 session_body))
              Sample.no_constants ∅)
           "ann@example.com" "secret" (Sample.world ∅) _ _ "tok123" "7" _
           "/jobs" GET JUndefined
           ltac:(vm_compute; reflexivity) eq_refl eq_refl
           ltac:(discriminate) eq_refl ltac:(vm_compute; reflexivity)).
Defined.

(** X20: [deleteAccount] resolves exactly when its request is answered in
    200..299; with a working storage both credentials are then gone. When
    the request is refused the user id stays stored, and so does the token
    unless the status is 401. *)
Theorem deleteAccount_outcome
    (P : Platform) (w w1 : World) tok (res : Response) :
  getToken w = (Return tok, w1) ->
  network P (BASE_URL P +:+ "/users/me") (build_init P DELETE tok JUndefined) = Some res ->
  let run := deleteAccount P w in
  returns run = ok res /\
  (ok res = true -> faults w = [] ->
   secure (snd run) !! TOKEN_KEY = None /\ secure (snd run) !! USER_ID_KEY = None) /\
  (ok res = false ->
   secure (snd run) !! USER_ID_KEY = secure w !! USER_ID_KEY /\
   (status res <> 401%Z -> secure (snd run) = secure w)).
Proof.
  intros Hget Hnet. apply getToken_inv in Hget as [-> ->]. cbv zeta.
  unfold deleteAccount. rewrite then_run, request_run. cbv zeta. rewrite Hnet.
  destruct (ok res) eqn:Hok.
  - rewrite (ok_not_401 _ Hok). rewrite clearAuth_run. cbv zeta.
    rewrite clearToken_run. cbn [fst snd returns].
    split; [reflexivity|]. split; [|discriminate].
    intros _ Hw. destruct w as [items fs tr]. cbn in Hw. subst fs.
    destruct (str_truthy (body_text res));
      cbn [secure after_call record faulted faults tail]; split;
      rewrite ?lookup_delete_eq; try reflexivity;
      rewrite lookup_delete_ne by discriminate; apply lookup_delete_eq.
  - destruct (status res =? 401)%Z eqn:H401.
    + rewrite clearToken_run. cbn [fst snd returns secure after_call record].
      split; [reflexivity|]. split; [discriminate|]. intros _. split.
      * match goal with |- context [if ?b then _ else _] => destruct b end;
          [reflexivity|].
        apply lookup_delete_ne. discriminate.
      * intros Hne. apply Z.eqb_eq in H401. contradiction.
    + cbn [fst snd returns]. split; [reflexivity|]. split; [discriminate|].
      intros _. destruct (str_truthy (body_text res)); split; reflexivity.
Qed.

Lemma deleteAccount_outcome_witness :
  let P := Sample.platform (Sample.always (mkResponse 200 EmptyString))
             Sample.no_constants ∅ in
  let w := Sample.world {[ TOKEN_KEY := "abc"; USER_ID_KEY := "7" ]} in
  secure (snd (deleteAccount P w)) !! TOKEN_KEY = None /\
  secure (snd (deleteAccount P w)) !! USER_ID_KEY = None.
Proof.
  cbv zeta.
  pose proof (deleteAccount_outcome
                (Sample.platform (Sample.always (mkResponse 200 EmptyString))
                   Sample.no_constants ∅)
                (Sample.world {[ TOKEN_KEY := "abc"; USER_ID_KEY := "7" ]})
                _ _ _ eq_refl eq_refl) as H.
  cbv zeta in H. destruct H as (_ & H & _). apply H; reflexivity.
Defined.

End AuthFacts.

(** ** The text of a CSV export *)

Module ShareCsvFacts.
Import Reports ReportsFacts ShareCsv.

(** One line of the file: the escaped texts joined by commas. *)
Definition line (texts : list string) : string := join "," (map escaped texts).













Section WithPlatform.

Variable P : Platform.





End WithPlatform.


End ShareCsvFacts.
